(** * download_drhp.py: the DRHP downloader, embedded and verified

    A shallow embedding of [src/download_drhp.py]: the pure helpers are Rocq
    functions; [main] and the functions with effects run in a small
    state-and-exception monad over a machine that holds the state file and
    the history of everything the script did to the outside world.

    Conventions.
    - A Python [str] is a Rocq [string], one [ascii] per character.
    - What the script takes from libraries ([str.lower], urllib, hashlib, the
      iteration order of a [set]) is a field of the class [Library], and
      every theorem holds for every instance.  [sample_library] is one
      instance, to compute with on ASCII text.
    - What the outside world answers (the listing page, the credential file,
      each download and each upload) is a field of the record [world].
    - The state file is what [json.load] makes of it: the exception that
      reading it raises, whichever it is, or a JSON document; [json.dump]
      stores a document.  Floating-point numbers in it are left out, and
      writing the file is taken to succeed, as is [print].
    - An exception is an [error]; all of them are subclasses of [Exception],
      which is what the [except] clause of the loop catches. *)

From stdpp Require Import gmap strings list.
From Stdlib Require Import Ascii String ZArith.

Set Warnings "-register-all".
Open Scope string_scope.
Open Scope list_scope.

(** ** Python string operations used by the script *)

Module PyStr.

(** [s.startswith(p)] *)
Fixpoint startswith (s p : string) {struct p} : bool :=
  match p with
  | EmptyString => true
  | String a p' =>
      match s with
      | EmptyString => false
      | String b s' => if Ascii.eqb a b then startswith s' p' else false
      end
  end.

(** [s.endswith(suffix)]: some tail of [s] is [suffix]. *)
Fixpoint endswith (s suffix : string) : bool :=
  String.eqb s suffix ||
  match s with
  | EmptyString => false
  | String _ s' => endswith s' suffix
  end.

(** [sub in s] *)
Fixpoint contains (sub s : string) : bool :=
  startswith s sub ||
  match s with
  | EmptyString => false
  | String _ s' => contains sub s'
  end.

(** [s.split(sep)[0]] for a one-character separator: the text before the
    first [sep], all of [s] when there is none. *)
Fixpoint before_first (sep : ascii) (s : string) : string :=
  match s with
  | EmptyString => EmptyString
  | String c s' => if Ascii.eqb c sep then EmptyString else String c (before_first sep s')
  end.

(** [os.path.basename(p)] on POSIX: the text after the last slash. *)
Fixpoint basename (p : string) : string :=
  match p with
  | EmptyString => EmptyString
  | String _ p' => if contains "/" p then basename p' else p
  end.

(** Truthiness of a string: [bool(s)]. *)
Definition truthy (s : string) : bool := negb (String.eqb s "").

End PyStr.

Import PyStr.

(** ** Values of the state file *)

(** What [json.load] can return, floating-point numbers apart. *)
Inductive json : Type :=
  | JNull
  | JBool (b : bool)
  | JInt (z : Z)
  | JStr (s : string)
  | JArr (items : list json)
  | JObj (members : list (string * json)).

(** The hashable Python values a [set] built from such a document can hold,
    up to Python equality: [True == 1] and [False == 0], so a boolean is the
    integer it equals. *)
Inductive atom : Type :=
  | ANone
  | AInt (z : Z)
  | AStr (s : string).

#[global] Instance atom_eq_dec : EqDecision atom.
Proof. solve_decision. Defined.

Definition atom_code (a : atom) : unit + (Z + string) :=
  match a with
  | ANone => inl tt
  | AInt z => inr (inl z)
  | AStr s => inr (inr s)
  end.

Definition atom_decode (c : unit + (Z + string)) : atom :=
  match c with
  | inl _ => ANone
  | inr (inl z) => AInt z
  | inr (inr s) => AStr s
  end.

#[global] Instance atom_countable : Countable atom.
Proof.
  apply (inj_countable' atom_code atom_decode).
  by intros [].
Defined.

(** ** Exceptions and events *)

(** The exceptions the script can meet; all are subclasses of [Exception]. *)
Inductive error : Type :=
  | JSONDecodeError      (* json.load: the file's text is not JSON *)
  | UnicodeDecodeError   (* json.load: the file's bytes are not text *)
  | RecursionError       (* json.load: the document is nested too deep *)
  | TypeError            (* set(): value not iterable, or an unhashable item *)
  | ConnectionError      (* requests: the transport failed *)
  | HTTPError            (* raise_for_status: the server answered an error status *)
  | FileNotFoundError    (* the credential file is missing *)
  | ValueError           (* the credential file is not a service-account key;
                            urljoin: an href that cannot be resolved;
                            json.load: an integer with too many digits *)
  | OSError              (* writing the downloaded file failed *)
  | ApiRequestError.     (* the Drive API refused or failed *)

(** The state file as [json.load(open(STATE_FILE))] sees it: a file on
    which that raises [e] ([JSONDecodeError] when the contents are text that
    is not JSON), or the document it returns. *)
Inductive file_content : Type :=
  | Garbled (e : error)
  | Document (doc : json).

(** Lines the script prints. *)
Inductive line : Type :=
  | LoadedState (n : nat)
  | Downloading (url : string)
  | Saved (path : string)
  | UploadedToDrive (fname : string)
  | ErrorWith (url : string) (e : error)
  | NewPDFs (n : nat).

(** What the script does to the outside world, in the order it does it; a
    request carries the outcome it met ([None]: no exception). *)
Inductive event : Type :=
  | Print (l : line)
  | FetchListing (outcome : option error)
  | LoadCredentials (outcome : option error)
  | Download (url path : string) (outcome : option error)
  | Upload (path fname : string) (outcome : option error)
  | Sleep (seconds : nat)
  | WriteState (doc : json).

(** A JSON value as a member of a Python set; lists and dicts are
    unhashable.  [True] and [1] are one member, whichever of them the set
    holds. *)
Definition hashable (v : json) : option atom :=
  match v with
  | JNull => Some ANone
  | JBool b => Some (AInt (if b then 1 else 0))
  | JInt z => Some (AInt z)
  | JStr s => Some (AStr s)
  | JArr _ | JObj _ => None
  end.

(** ** The library interface *)

Class Library : Type := {
  (** [str.lower] *)
  lower : string -> string;
  lower_empty : lower "" = "";
  (** [urllib.parse.urljoin(base, url)] *)
  urljoin : string -> string -> string;
  (** [urllib.parse.urlparse(url).path] *)
  urlparse_path : string -> string;
  (** [hashlib.sha1(url.encode()).hexdigest()] *)
  sha1_hexdigest : string -> string;
  (** [list(state)], as [json.dump] then writes it: the members the set
      holds, each once.  The order is the one the interpreter iterates in,
      which depends on the process and on how the set was built, so it is a
      function of the history as well; a member that is [True] or [1] is
      written as the one of the two the set holds. *)
  list_of_set : list event -> gset atom -> list json;
  list_of_set_members : forall h s,
    exists members,
      mapM hashable (list_of_set h s) = Some members /\ members ≡ₚ elements s
}.

(** ** Configuration constants *)

Definition SEBI_URL : string := "https://www.sebi.gov.in/filings/public-issues.html".
Definition OUT_DIR : string := "drhps".
Definition KEYWORDS : list string :=
  ["draft"; "drhp"; "red-herring"; "red herring"; "offer document"].

(** ** Pure helpers *)

(** One [<a href=...>] element of the parsed page: [a.get_text(" ", strip=True)]
    and [a["href"]]. *)
Record anchor : Type := Anchor { get_text : string; href : string }.

Section Helpers.
Context `{Library}.

(** [href and (href.lower().endswith(".pdf") or ".pdf?" in href.lower())] *)
Definition is_pdf_link (href : string) : bool :=
  truthy href && (endswith (lower href) ".pdf" || contains ".pdf?" (lower href)).

(** [text and any(k in text.lower() for k in KEYWORDS)] *)
Definition likely_drhp_text (text : string) : bool :=
  truthy text && existsb (fun k => contains k (lower text)) KEYWORDS.

Definition pdf_filename (url : string) : string :=
  let name := basename (urlparse_path url) in
  let name := if truthy name then name else "drhp.pdf" in
  let name := before_first "?" name in
  let h := String.substring 0 8 (sha1_hexdigest url) in
  h +:+ "_" +:+ name.

(** [os.path.join(OUT_DIR, fname)] on POSIX: an absolute second part
    replaces the first. *)
Definition out_path (fname : string) : string :=
  if startswith fname "/" then fname else OUT_DIR +:+ "/" +:+ fname.

(** The loop of [main] that fills [candidates]. *)
Definition collect_candidates (anchors : list anchor) : list string :=
  fold_left
    (fun candidates a =>
       let full := urljoin SEBI_URL (href a) in
       let text := get_text a +:+ " " +:+ href a in
       if is_pdf_link full && likely_drhp_text text
       then candidates ++ [full]
       else candidates)
    anchors [].

End Helpers.

(** ** The outside world and the machine *)

(** The answer to [requests.get(SEBI_URL, ...)] followed by
    [r.raise_for_status()] and the parse of the page. *)
Inductive listing_answer : Type :=
  | Unreachable                       (* requests.get raises *)
  | ErrorStatus                       (* raise_for_status raises *)
  | Unresolvable (anchors : list anchor)
      (* a page with an href on which urljoin raises ValueError *)
  | Page (anchors : list anchor).
      (* soup.find_all("a", href=True), urljoin resolving every href *)

(** The credential file [service_account.json]. *)
Inductive key_file : Type :=
  | KeyMissing
  | KeyInvalid
  | KeyValid.

(** The outside world of one run.  Whether a download or an upload succeeds
    may depend on everything that happened before it. *)
Record world : Type := World {
  listing : listing_answer;
  credentials : key_file;
  download : list event -> string -> string -> option error;
  upload : list event -> string -> string -> option error
}.

(** The machine: the state file [downloaded.json] and the history so far. *)
Record machine : Type := Machine {
  state_file : option file_content;
  history : list event
}.

(** ** The monad of the script: state and exceptions *)

Inductive result (A : Type) : Type :=
  | Return (a : A)
  | Raise (e : error).
Arguments Return {A} a.
Arguments Raise {A} e.

Definition M (A : Type) : Type := machine -> result A * machine.

Definition ret {A} (a : A) : M A := fun m => (Return a, m).

Definition bind {A B} (c : M A) (k : A -> M B) : M B :=
  fun m =>
    match c m with
    | (Return a, m') => k a m'
    | (Raise e, m') => (Raise e, m')
    end.

Definition raise {A} (e : error) : M A := fun m => (Raise e, m).

(** [try: body / except Exception as e: handler e] *)
Definition try_except {A} (body : M A) (handler : error -> M A) : M A :=
  fun m =>
    match body m with
    | (Return a, m') => (Return a, m')
    | (Raise e, m') => handler e m'
    end.

Definition emit (ev : event) : M unit :=
  fun m => (Return tt, Machine (state_file m) (history m ++ [ev])).

Definition get_history : M (list event) := fun m => (Return (history m), m).

(** Raise [e] when the outcome is [Some e]. *)
Definition check (outcome : option error) : M unit :=
  match outcome with
  | None => ret tt
  | Some e => raise e
  end.

#[global] Instance M_ret : MRet M := @ret.
#[global] Instance M_bind : MBind M := fun A B k c => bind c k.

(** ** The state store *)

(** Iterating over a value: a list gives its items, a dict its keys, a
    string its characters; nothing else is iterable. *)
Definition py_iter (v : json) : option (list json) :=
  match v with
  | JArr items => Some items
  | JObj members => Some (map (fun kv => JStr (fst kv)) members)
  | JStr s => Some (map (fun c => JStr (String c EmptyString)) (list_ascii_of_string s))
  | JNull | JBool _ | JInt _ => None
  end.

(** [set(v)] *)
Definition py_set (v : json) : result (gset atom) :=
  match py_iter v with
  | None => Raise TypeError
  | Some items =>
      match mapM hashable items with
      | None => Raise TypeError
      | Some atoms => Return (list_to_set atoms)
      end
  end.

Definition atom_json (a : atom) : json :=
  match a with
  | ANone => JNull
  | AInt z => JInt z
  | AStr s => JStr s
  end.

Definition load_state : M (gset atom) :=
  fun m =>
    match state_file m with
    | Some (Garbled e) => (Raise e, m)
    | Some (Document doc) => (py_set doc, m)
    | None => (Return ∅, m)
    end.

(** The handle [GoogleDrive(creds)] that [get_drive] returns. *)
Inductive drive : Type := GoogleDrive.

(** The exception that reading the credential file raises, if any. *)
Definition key_error (k : key_file) : option error :=
  match k with
  | KeyMissing => Some FileNotFoundError
  | KeyInvalid => Some ValueError
  | KeyValid => None
  end.

Section Script.
Context `{Library} (w : world).

Definition save_state (state : gset atom) : M unit :=
  fun m =>
    let doc := JArr (list_of_set (history m) state) in
    (Return tt, Machine (Some (Document doc)) (history m ++ [WriteState doc])).

(** ** The archiver *)

Definition download_file (url outpath : string) : M unit :=
  emit (Print (Downloading url)) ;;
  h ← get_history;
  let outcome := download w h url outpath in
  emit (Download url outpath outcome) ;;
  check outcome ;;
  emit (Print (Saved outpath)).

Definition upload_to_drive (d : drive) (filepath filename : string) : M unit :=
  h ← get_history;
  let outcome := upload w h filepath filename in
  emit (Upload filepath filename outcome) ;;
  check outcome ;;
  emit (Print (UploadedToDrive filename)).

(** [ServiceAccountCredentials.from_json_keyfile_name] raises when the key
    file is missing or invalid. *)
Definition get_drive : M drive :=
  let outcome := key_error (credentials w) in
  emit (LoadCredentials outcome) ;;
  check outcome ;;
  ret GoogleDrive.

(** ** The orchestrator *)

(** [requests.get(SEBI_URL, ...)], [r.raise_for_status()] and the parse. *)
Definition fetch_listing : M (list anchor) :=
  match listing w with
  | Unreachable => emit (FetchListing (Some ConnectionError)) ;; raise ConnectionError
  | ErrorStatus => emit (FetchListing (Some HTTPError)) ;; raise HTTPError
  | Unresolvable anchors | Page anchors => emit (FetchListing None) ;; ret anchors
  end.

(** The loop of [main] that fills [candidates]; it is outside any [try], so
    an href that [urljoin] cannot resolve ends the run. *)
Definition find_candidates (anchors : list anchor) : M (list string) :=
  match listing w with
  | Unresolvable _ => raise ValueError
  | _ => ret (collect_candidates anchors)
  end.

(** The body of [for url in candidates]; [state] and [new_count] are the
    two variables of [main] it updates.  Nothing after [state.add(url)]
    can raise, so the handler sees them unchanged. *)
Definition loop_body (d : drive) (url : string) (vars : gset atom * nat)
  : M (gset atom * nat) :=
  let '(state, new_count) := vars in
  if decide (AStr url ∈ state) then ret vars
  else
    let fname := pdf_filename url in
    let path := out_path fname in
    try_except
      (download_file url path ;;
       upload_to_drive d path fname ;;
       let state := {[AStr url]} ∪ state in
       let new_count := S new_count in
       emit (Sleep 1) ;;
       ret (state, new_count))
      (fun e => emit (Print (ErrorWith url e)) ;; ret vars).

Fixpoint archive_loop (d : drive) (candidates : list string)
    (vars : gset atom * nat) : M (gset atom * nat) :=
  match candidates with
  | [] => ret vars
  | url :: rest => vars' ← loop_body d url vars; archive_loop d rest vars'
  end.

Definition main : M unit :=
  state ← load_state;
  emit (Print (LoadedState (size state))) ;;
  anchors ← fetch_listing;
  candidates ← find_candidates anchors;
  d ← get_drive;
  '(state, new_count) ← archive_loop d candidates (state, 0);
  save_state state ;;
  emit (Print (NewPDFs new_count)).

End Script.

(** ** A library to compute with

    [sample_library] agrees with CPython on plain ASCII text and on URLs of
    the everyday shape [scheme://host/path?query#fragment]; references with
    dot segments, and references that are only a query or a fragment, are
    outside what [Sample.urljoin] resolves faithfully. *)

(** SHA-1 (FIPS 180-4) over the character codes of a string, in lower-case
    hexadecimal: [hashlib.sha1(s.encode()).hexdigest()] for ASCII [s]. *)
Module Sha1.
Open Scope Z_scope.

Definition mask32 : Z := 4294967295.
Definition add32 (a b : Z) : Z := Z.land (a + b) mask32.
Definition rotl (n x : Z) : Z :=
  Z.land (Z.lor (Z.shiftl x n) (Z.shiftr x (32 - n))) mask32.
Definition not32 (x : Z) : Z := Z.lxor x mask32.

Definition bytes_of (s : string) : list Z :=
  map (fun c => Z.of_nat (nat_of_ascii c)) (list_ascii_of_string s).

(** Big-endian bytes of [x], [n] of them. *)
Fixpoint be_bytes (n : nat) (x : Z) : list Z :=
  match n with
  | O => []
  | S n' => Z.land (Z.shiftr x (8 * Z.of_nat n')) 255 :: be_bytes n' x
  end.

Definition be_word (bs : list Z) : Z :=
  fold_left (fun acc b => Z.lor (Z.shiftl acc 8) b) bs 0.

Definition pad (msg : list Z) : list Z :=
  let len := Z.of_nat (List.length msg) in
  let zeros := Z.to_nat ((55 - len) mod 64) in
  msg ++ [128] ++ repeat 0 zeros ++ be_bytes 8 (8 * len).

(** Cut a list in pieces of [n] items. *)
Fixpoint chunks {A} (fuel n : nat) (l : list A) : list (list A) :=
  match fuel, l with
  | O, _ | _, [] => []
  | S fuel', _ => take n l :: chunks fuel' n (drop n l)
  end.

(** The message schedule, latest word first. *)
Fixpoint expand (k : nat) (ws : list Z) : list Z :=
  match k with
  | O => ws
  | S k' =>
      let at' i := nth i ws 0 in
      expand k' (rotl 1 (Z.lxor (Z.lxor (at' 2%nat) (at' 7%nat))
                                (Z.lxor (at' 13%nat) (at' 15%nat))) :: ws)
  end.

Definition schedule (block : list Z) : list Z :=
  rev (expand 64 (rev (map be_word (chunks 16 4 block)))).

Definition round (t : nat) (st : Z * Z * Z * Z * Z) (wt : Z) : Z * Z * Z * Z * Z :=
  let '(a, b, c, d, e) := st in
  let '(f, k) :=
    if (t <? 20)%nat then (Z.lor (Z.land b c) (Z.land (not32 b) d), 1518500249)
    else if (t <? 40)%nat then (Z.lxor (Z.lxor b c) d, 1859775393)
    else if (t <? 60)%nat
         then (Z.lor (Z.lor (Z.land b c) (Z.land b d)) (Z.land c d), 2400959708)
    else (Z.lxor (Z.lxor b c) d, 3395469782) in
  let temp := add32 (add32 (add32 (add32 (rotl 5 a) f) e) k) wt in
  (temp, a, rotl 30 b, c, d).

Fixpoint rounds (t : nat) (ws : list Z) (st : Z * Z * Z * Z * Z) : Z * Z * Z * Z * Z :=
  match ws with
  | [] => st
  | wt :: ws' => rounds (S t) ws' (round t st wt)
  end.

Definition compress (h : Z * Z * Z * Z * Z) (block : list Z) : Z * Z * Z * Z * Z :=
  let '(h0, h1, h2, h3, h4) := h in
  let '(a, b, c, d, e) := rounds 0 (schedule block) h in
  (add32 h0 a, add32 h1 b, add32 h2 c, add32 h3 d, add32 h4 e).

Definition initial : Z * Z * Z * Z * Z :=
  (1732584193, 4023233417, 2562383102, 271733878, 3285377520).

Definition hex_digit (d : Z) : ascii :=
  nth (Z.to_nat d) (list_ascii_of_string "0123456789abcdef") "0"%char.

Fixpoint hex (digits : nat) (x : Z) : string :=
  match digits with
  | O => EmptyString
  | S n => String (hex_digit (Z.land (Z.shiftr x (4 * Z.of_nat n)) 15)) (hex n x)
  end.

Definition hexdigest (s : string) : string :=
  let msg := pad (bytes_of s) in
  let '(h0, h1, h2, h3, h4) :=
    fold_left compress (chunks (List.length msg) 64 msg) initial in
  hex 8 h0 +:+ hex 8 h1 +:+ hex 8 h2 +:+ hex 8 h3 +:+ hex 8 h4.
End Sha1.

Module Sample.

(** [str.lower] on ASCII text: [A]-[Z] become [a]-[z]. *)
Definition ascii_lower_char (c : ascii) : ascii :=
  let n := Ascii.nat_of_ascii c in
  if (65 <=? n)%nat && (n <=? 90)%nat then Ascii.ascii_of_nat (n + 32) else c.

Fixpoint ascii_lower (s : string) : string :=
  match s with
  | EmptyString => EmptyString
  | String c s' => String (ascii_lower_char c) (ascii_lower s')
  end.

(** The text after the first occurrence of [sub]. *)
Fixpoint after (sub s : string) : option string :=
  if startswith s sub then Some (String.substring (String.length sub) (String.length s) s)
  else match s with
       | EmptyString => None
       | String _ s' => after sub s'
       end.

Definition one_of (stops : string) (c : ascii) : bool :=
  existsb (Ascii.eqb c) (list_ascii_of_string stops).

(** The longest prefix without a stop character, and what follows it. *)
Fixpoint until (stops s : string) : string :=
  match s with
  | EmptyString => EmptyString
  | String c s' => if one_of stops c then EmptyString else String c (until stops s')
  end.

Fixpoint from (stops s : string) : string :=
  match s with
  | EmptyString => EmptyString
  | String c s' => if one_of stops c then s else from stops s'
  end.

(** [p] without its base name: up to and including the last slash. *)
Definition dirname_slash (p : string) : string :=
  String.substring 0 (String.length p - String.length (basename p)) p.

(** [scheme://netloc] of an absolute URL. *)
Definition origin (url : string) : string :=
  match after "://" url with
  | Some rest =>
      String.substring 0 (String.length url - String.length (from "/?#" rest)) url
  | None => EmptyString
  end.

(** [urlparse(url).path]: between the authority and the first [?] or [#],
    parameters ([;...] in the last segment) cut off. *)
Definition urlparse_path (url : string) : string :=
  let rest :=
    match after "://" url with
    | Some r => from "/?#" r
    | None => url
    end in
  let p := until "?#" rest in
  dirname_slash p +:+ until ";" (basename p).

Definition urljoin (base url : string) : string :=
  if negb (truthy url) then base
  else if contains "://" url then url
  else if startswith url "//" then until ":" base +:+ ":" +:+ url
  else if startswith url "/" then origin base +:+ url
  else origin base +:+ dirname_slash (urlparse_path base) +:+ url.

End Sample.

Definition sample_library : Library := {|
  lower := Sample.ascii_lower;
  lower_empty := eq_refl;
  urljoin := Sample.urljoin;
  urlparse_path := Sample.urlparse_path;
  sha1_hexdigest := Sha1.hexdigest;
  list_of_set := fun _ s => atom_json <$> elements s;
  list_of_set_members := fun _ s =>
    ex_intro _ (elements s)
      (conj (mapM_fmap_Some hashable atom_json (elements s)
               (fun a => match a with
                         | ANone | AInt _ | AStr _ => eq_refl
                         end))
            (reflexivity (elements s)))
|}.

(** ** What the claims compare the script with *)

Section Claims.
Context `{Library}.

(** The absolute URL of an anchor. *)
Definition resolve (a : anchor) : string := urljoin SEBI_URL (href a).

(** The extension predicate: the lowercased URL ends with [.pdf] or
    contains [.pdf?]. *)
Definition extension_match (url : string) : bool :=
  endswith (lower url) ".pdf" || contains ".pdf?" (lower url).

(** The keyword predicate: the lowercased text contains a keyword. *)
Definition keyword_match (text : string) : bool :=
  existsb (fun k => contains k (lower text)) KEYWORDS.

(** The text the script searches for keywords: the visible text, one
    space, the raw href. *)
Definition searched_text (a : anchor) : string :=
  get_text a +:+ " " +:+ href a.

Definition selected (a : anchor) : bool :=
  extension_match (resolve a) && keyword_match (searched_text a).

(** The selection as the specification words it: the keyword is looked for
    in the concatenation of the visible text and the raw href. *)
Definition claimed_selected (a : anchor) : bool :=
  extension_match (resolve a) && keyword_match (get_text a +:+ href a).

Definition claimed_candidates (anchors : list anchor) : list string :=
  map resolve (List.filter claimed_selected anchors).

End Claims.

(** The exception that fetching the listing page raises, if any. *)
Definition fetch_error (a : listing_answer) : option error :=
  match a with
  | Unreachable => Some ConnectionError
  | ErrorStatus => Some HTTPError
  | Unresolvable _ | Page _ => None
  end.

(** The machine after more events. *)
Definition extend (m : machine) (evs : list event) : machine :=
  Machine (state_file m) (history m ++ evs).

Section Outcomes.
Context `{Library} (w : world).

Definition path_of (url : string) : string := out_path (pdf_filename url).

(** What the world answers when [url] is tried after history [h]: to the
    download, and to the upload that follows a successful download. *)
Definition download_outcome (h : list event) (url : string) : option error :=
  download w (h ++ [Print (Downloading url)]) url (path_of url).

Definition upload_outcome (h : list event) (url : string) : option error :=
  upload w
    (h ++ [Print (Downloading url); Download url (path_of url) None;
           Print (Saved (path_of url))])
    (path_of url) (pdf_filename url).

(** The exception the [try] block meets for [url] after [h], if any. *)
Definition attempt (h : list event) (url : string) : option error :=
  match download_outcome h url with
  | Some e => Some e
  | None => upload_outcome h url
  end.

(** What one iteration adds to the history, by the way it ends. *)
Definition download_failed_events (url : string) (e : error) : list event :=
  [Print (Downloading url); Download url (path_of url) (Some e);
   Print (ErrorWith url e)].

Definition upload_failed_events (url : string) (e : error) : list event :=
  [Print (Downloading url); Download url (path_of url) None;
   Print (Saved (path_of url));
   Upload (path_of url) (pdf_filename url) (Some e);
   Print (ErrorWith url e)].

Definition archived_events (url : string) : list event :=
  [Print (Downloading url); Download url (path_of url) None;
   Print (Saved (path_of url));
   Upload (path_of url) (pdf_filename url) None;
   Print (UploadedToDrive (pdf_filename url));
   Sleep 1].

(** Whether the iteration for [url], run on machine [m] with the set
    [state], archives it: the URL is new, and its download and its upload
    both succeed. *)
Definition archives (m : machine) (state : gset atom) (url : string) : bool :=
  bool_decide (AStr url ∉ state) &&
  match attempt (history m) url with
  | None => true
  | Some _ => false
  end.

(** A candidate the world never refuses. *)
Definition reliable (url : string) : Prop :=
  forall h, download_outcome h url = None /\ upload_outcome h url = None.

(** The four ways an iteration can end. *)
Inductive iteration (url : string) (state : gset atom) (n : nat) (m : machine)
  : gset atom * nat -> list event -> Prop :=
  | Skipped :
      AStr url ∈ state ->
      iteration url state n m (state, n) []
  | DownloadFailed e :
      AStr url ∉ state ->
      download_outcome (history m) url = Some e ->
      iteration url state n m (state, n) (download_failed_events url e)
  | UploadFailed e :
      AStr url ∉ state ->
      download_outcome (history m) url = None ->
      upload_outcome (history m) url = Some e ->
      iteration url state n m (state, n) (upload_failed_events url e)
  | Archived :
      AStr url ∉ state ->
      download_outcome (history m) url = None ->
      upload_outcome (history m) url = None ->
      iteration url state n m ({[AStr url]} ∪ state, S n) (archived_events url).

End Outcomes.

(** Events of a history, by kind. *)
Definition is_download (ev : event) : bool :=
  match ev with Download _ _ _ => true | _ => false end.
Definition is_upload (ev : event) : bool :=
  match ev with Upload _ _ _ => true | _ => false end.
Definition is_upload_ok (ev : event) : bool :=
  match ev with Upload _ _ None => true | _ => false end.
Definition is_sleep (ev : event) : bool :=
  match ev with Sleep _ => true | _ => false end.
Definition is_write (ev : event) : bool :=
  match ev with WriteState _ => true | _ => false end.
Definition is_fetch (ev : event) : bool :=
  match ev with FetchListing _ => true | _ => false end.

Definition is_download_of (url : string) (ev : event) : bool :=
  match ev with Download u _ _ => String.eqb u url | _ => false end.

Definition count (p : event -> bool) (evs : list event) : nat :=
  List.length (List.filter p evs).

(** What every iteration preserves. *)
Record step_ok (url : string) (state : gset atom) (n : nat)
    (vars : gset atom * nat) (evs : list event) : Prop := {
  step_grows : state ⊆ vars.1;
  step_new : forall x, x ∈ vars.1 -> x ∈ state \/ x = AStr url;
  step_count : vars.2 = n + count is_upload_ok evs;
  step_size : size vars.1 = size state + count is_upload_ok evs;
  step_sleeps : count is_sleep evs = count is_upload_ok evs;
  step_no_write : count is_write evs = 0;
  step_no_fetch : count is_fetch evs = 0
}.

(** The loop never raises; what it preserves. *)
Record loop_ok (candidates : list string) (state : gset atom) (n : nat)
    (vars : gset atom * nat) (evs : list event) : Prop := {
  loop_grows : state ⊆ vars.1;
  loop_new : forall x,
    x ∈ vars.1 -> x ∈ state \/ exists url, url ∈ candidates /\ x = AStr url;
  loop_count : vars.2 = n + count is_upload_ok evs;
  loop_size : size vars.1 = size state + count is_upload_ok evs;
  loop_sleeps : count is_sleep evs = count is_upload_ok evs;
  loop_no_write : count is_write evs = 0;
  loop_no_fetch : count is_fetch evs = 0
}.

(** A state file in the format the script writes: a JSON array of strings. *)
Definition well_formed (c : file_content) : Prop :=
  exists urls : list string, c = Document (JArr (map JStr urls)).

(** The Processed-Set that holds exactly the URLs of [urls]. *)
Definition url_set (urls : gset string) : gset atom := set_map AStr urls.

(** The five ways a run of [main] can end: the state file cannot be loaded,
    the listing page cannot be fetched, a link of the page cannot be
    resolved, the credentials cannot be read, or the loop runs and the state
    is saved. *)
Section Runs.
Context `{Library} (w : world).

Definition greeting (loaded : gset atom) : event :=
  Print (LoadedState (size loaded)).

(** The document [save_state] writes for [final] after history [h]. *)
Definition saved_document (h : list event) (final : gset atom) : json :=
  JArr (list_of_set h final).

(** The history of a run up to the loop, when it gets there. *)
Definition prelude (loaded : gset atom) : list event :=
  [greeting loaded; FetchListing None; LoadCredentials None].

Inductive main_run (m : machine) : result unit * machine -> Prop :=
  | LoadFailed e :
      load_state m = (Raise e, m) ->
      main_run m (Raise e, m)
  | FetchFailed loaded e :
      load_state m = (Return loaded, m) ->
      fetch_error (listing w) = Some e ->
      main_run m
        (Raise e, extend m [greeting loaded; FetchListing (Some e)])
  | ResolveFailed loaded anchors :
      load_state m = (Return loaded, m) ->
      listing w = Unresolvable anchors ->
      main_run m
        (Raise ValueError, extend m [greeting loaded; FetchListing None])
  | KeyFailed loaded anchors e :
      load_state m = (Return loaded, m) ->
      listing w = Page anchors ->
      key_error (credentials w) = Some e ->
      main_run m
        (Raise e,
         extend m [greeting loaded; FetchListing None; LoadCredentials (Some e)])
  | Completed loaded anchors final n evs :
      load_state m = (Return loaded, m) ->
      listing w = Page anchors ->
      key_error (credentials w) = None ->
      archive_loop w GoogleDrive (collect_candidates anchors) (loaded, 0)
        (extend m (prelude loaded))
      = (Return (final, n), extend m (prelude loaded ++ evs)) ->
      loop_ok (collect_candidates anchors) loaded 0 (final, n) evs ->
      main_run m
        (Return tt,
         Machine
           (Some (Document
                    (saved_document (history m ++ prelude loaded ++ evs) final)))
           (history m
            ++ prelude loaded
            ++ evs
            ++ [WriteState (saved_document (history m ++ prelude loaded ++ evs) final);
                Print (NewPDFs n)])).

End Runs.

(** ** What the further theorems speak of *)

Section Names.
Context `{Library}.

(** The two parts [pdf_filename] joins with an underscore: [h] and [name]. *)
Definition digest_prefix (url : string) : string :=
  String.substring 0 8 (sha1_hexdigest url).

Definition name_of (url : string) : string :=
  let name := basename (urlparse_path url) in
  before_first "?" (if truthy name then name else "drhp.pdf").

(** The events one iteration for [url] can add to the history. *)
Definition block_of (url : string) (block : list event) : Prop :=
  block = [] \/
  (exists e, block = download_failed_events url e) \/
  (exists e, block = upload_failed_events url e) \/
  block = archived_events url.

End Names.

(** The documents [set()] refuses: a value that cannot be iterated over, or
    an array with an unhashable item. *)
Definition unloadable (doc : json) : bool :=
  match doc with
  | JNull | JBool _ | JInt _ => true
  | JArr items =>
      existsb (fun v => match hashable v with None => true | Some _ => false end) items
  | JStr _ | JObj _ => false
  end.

(** Reading a history from left to right with the path of the download that
    has just succeeded and is not uploaded yet: every upload is of that path. *)
Fixpoint uploads_follow_downloads (last : option string) (evs : list event) : bool :=
  match evs with
  | [] => true
  | Download _ path None :: rest => uploads_follow_downloads (Some path) rest
  | Download _ _ (Some _) :: rest => uploads_follow_downloads None rest
  | Upload path _ _ :: rest =>
      match last with
      | Some p => String.eqb p path && uploads_follow_downloads None rest
      | None => false
      end
  | _ :: rest => uploads_follow_downloads last rest
  end.

Definition is_error_for (url : string) (ev : event) : bool :=
  match ev with Print (ErrorWith u _) => String.eqb u url | _ => false end.

(** ** Scenarios to run the script on *)

Module Scenario.

Definition A : string := "https://www.sebi.gov.in/filings/alpha-drhp.pdf".
Definition B : string := "https://www.sebi.gov.in/filings/beta-drhp.pdf".

(** A listing page with both documents and a link that is no candidate. *)
Definition page : list anchor :=
  [Anchor "Alpha Ltd - DRHP" "alpha-drhp.pdf";
   Anchor "Beta Ltd - DRHP" "beta-drhp.pdf";
   Anchor "Home" "/index.html"].

(** A fresh environment, and one whose state file already lists [A]. *)
Definition fresh : machine := Machine None [].
Definition seen_A : machine := Machine (Some (Document (JArr [JStr A]))) [].

(** A state file that lists both documents. *)
Definition seen_both : machine :=
  Machine (Some (Document (JArr [JStr A; JStr B]))) [].

(** A state file that is not JSON, and one that holds a number. *)
Definition garbled : machine := Machine (Some (Garbled JSONDecodeError)) [].
Definition number_file : machine := Machine (Some (Document (JInt 5))) [].

(** State files that hold an empty JSON object and an empty JSON string. *)
Definition empty_object_file : machine := Machine (Some (Document (JObj []))) [].
Definition empty_string_file : machine := Machine (Some (Document (JStr ""))) [].

Definition always_ok : list event -> string -> string -> option error :=
  fun _ _ _ => None.

(** Everything works. *)
Definition fine : world := World (Page page) KeyValid always_ok always_ok.

(** The server refuses [A]; everything else works. *)
Definition alpha_down : world :=
  World (Page page) KeyValid
    (fun _ url _ => if String.eqb url A then Some HTTPError else None)
    always_ok.

(** Everything works, and the page lists every document twice. *)
Definition repeated : world :=
  World (Page (page ++ page)) KeyValid always_ok always_ok.

(** The listing page cannot be fetched. *)
Definition site_down : world := World Unreachable KeyValid always_ok always_ok.

(** The listing page has a link that cannot be resolved. *)
Definition bad_link : world :=
  World (Unresolvable (page ++ [Anchor "Draft" "http://[::1/draft.pdf"]))
    KeyValid always_ok always_ok.

(** The credential file is missing. *)
Definition no_key : world := World (Page page) KeyMissing always_ok always_ok.

End Scenario.

(** * Theorems *)

(** ** Strings *)

Lemma append_nil (q : string) : "" +:+ q = q.
Proof. reflexivity. Qed.

Lemma append_String (a : ascii) (p q : string) :
  String a p +:+ q = String a (p +:+ q).
Proof. reflexivity. Qed.

Ltac norm_append := rewrite ?append_String, ?append_nil in *.

Lemma startswith_spec s p :
  startswith s p = true <-> exists q, s = p +:+ q.
Proof.
  revert s; induction p as [|a p IH]; intros s; simpl.
  - split; [eauto|done].
  - destruct s as [|b s].
    + split; [done|]. intros [q Hq]. discriminate.
    + destruct (Ascii.eqb_spec a b) as [->|Hne].
      * rewrite IH. split; intros [q Hq]; exists q; norm_append; congruence.
      * split; [done|]. intros [q Hq]. norm_append. congruence.
Qed.

Lemma endswith_spec s suffix :
  endswith s suffix = true <-> exists p, s = p +:+ suffix.
Proof.
  induction s as [|c s IH]; cbn [endswith].
  - rewrite orb_false_r. destruct (String.eqb_spec "" suffix) as [<-|Hne].
    + split; [by exists ""|done].
    + split; [done|]. intros [[|] Hp]; norm_append; [done|discriminate].
  - rewrite orb_true_iff, IH. split.
    + intros [Heq|[p ->]].
      * apply String.eqb_eq in Heq. by exists "".
      * by exists (String c p).
    + intros [[|d p] Hp]; norm_append.
      * left. by apply String.eqb_eq.
      * right. exists p. congruence.
Qed.

Lemma contains_spec sub s :
  contains sub s = true <-> exists p q, s = p +:+ sub +:+ q.
Proof.
  induction s as [|c s IH].
  - simpl. rewrite orb_false_r, startswith_spec. split.
    + intros [q Hq]. by exists "", q.
    + intros [[|d p] [q Hq]]; norm_append; [eauto|discriminate].
  - cbn [contains]. rewrite orb_true_iff, IH, startswith_spec. split.
    + intros [[q Hq]|[p [q ->]]].
      * by exists "", q.
      * by exists (String c p), q.
    + intros [[|d p] [q Hq]]; norm_append.
      * left. eauto.
      * right. exists p, q. congruence.
Qed.

(** ** Candidate selection *)

Section Selection.
Context `{Library}.

Lemma is_pdf_link_extension url : is_pdf_link url = extension_match url.
Proof.
  unfold is_pdf_link, extension_match, truthy.
  destruct (String.eqb_spec url "") as [->|_]; [|done].
  by rewrite lower_empty.
Qed.

Lemma likely_drhp_text_keyword text : likely_drhp_text text = keyword_match text.
Proof.
  unfold likely_drhp_text, keyword_match, truthy.
  destruct (String.eqb_spec text "") as [->|_]; [|done].
  by rewrite lower_empty.
Qed.

Lemma extension_match_spec url :
  extension_match url = true <->
  (exists p, lower url = p +:+ ".pdf") \/
  (exists p q, lower url = p +:+ ".pdf?" +:+ q).
Proof.
  unfold extension_match.
  by rewrite orb_true_iff, endswith_spec, contains_spec.
Qed.

Lemma keyword_match_spec text :
  keyword_match text = true <->
  exists k p q, k ∈ KEYWORDS /\ lower text = p +:+ k +:+ q.
Proof.
  unfold keyword_match. rewrite existsb_exists. split.
  - intros [k [Hin Hk]]. apply contains_spec in Hk as [p [q Hk]].
    exists k, p, q. by rewrite list_elem_of_In.
  - intros [k [p [q [Hin Hk]]]]. exists k. rewrite <- list_elem_of_In.
    split; [done|]. apply contains_spec. eauto.
Qed.

Lemma collect_from (anchors : list anchor) (found : list string) :
  fold_left
    (fun candidates a =>
       let full := urljoin SEBI_URL (href a) in
       let text := get_text a +:+ " " +:+ href a in
       if is_pdf_link full && likely_drhp_text text
       then candidates ++ [full]
       else candidates)
    anchors found
  = found ++ map resolve (List.filter selected anchors).
Proof.
  revert found. induction anchors as [|a anchors IH]; intros found; simpl.
  - by rewrite app_nil_r.
  - rewrite IH. unfold selected at 2, searched_text, resolve at 2.
    rewrite is_pdf_link_extension, likely_drhp_text_keyword.
    destruct (_ && _); simpl; [|done].
    by rewrite <- app_assoc.
Qed.

(** C2, as amended: the candidates are, in document order, the resolved
    URLs of exactly the hyperlinks whose resolved URL, lowercased, ends
    with [.pdf] or contains [.pdf?], and whose visible text, one space and
    raw href, joined and lowercased, contain a keyword of the list. *)
Theorem candidate_selection (anchors : list anchor) :
  collect_candidates anchors = map resolve (List.filter selected anchors) /\
  forall a,
    selected a = true <->
    ((exists p, lower (resolve a) = p +:+ ".pdf") \/
     (exists p q, lower (resolve a) = p +:+ ".pdf?" +:+ q)) /\
    (exists k p q,
       k ∈ KEYWORDS /\
       lower (get_text a +:+ " " +:+ href a) = p +:+ k +:+ q).
Proof.
  split.
  - unfold collect_candidates. by rewrite collect_from.
  - intros a. unfold selected.
    by rewrite andb_true_iff, extension_match_spec, keyword_match_spec.
Qed.

End Selection.

(** ** The loop over the candidates *)

Ltac run_script :=
  unfold mbind, M_bind, bind, mret, M_ret, ret, raise, emit, get_history,
    check, try_except, extend; simpl.

Section Loop.
Context `{Library} (w : world).

Implicit Types (state : gset atom) (m : machine) (url : string).

Lemma extend_nil m : extend m [] = m.
Proof. destruct m. unfold extend. simpl. by rewrite app_nil_r. Qed.

Lemma extend_extend m evs evs' :
  extend (extend m evs) evs' = extend m (evs ++ evs').
Proof. unfold extend. simpl. by rewrite app_assoc. Qed.

Lemma loop_body_skipped url state n m :
  AStr url ∈ state ->
  loop_body w GoogleDrive url (state, n) m = (Return (state, n), m).
Proof. intros Hin. unfold loop_body. by rewrite decide_True. Qed.

Lemma loop_body_download_failed url state n m e :
  AStr url ∉ state ->
  download_outcome w (history m) url = Some e ->
  loop_body w GoogleDrive url (state, n) m
  = (Return (state, n), extend m (download_failed_events url e)).
Proof.
  intros Hout Hd. unfold loop_body. rewrite decide_False by done.
  unfold download_file, upload_to_drive. run_script.
  unfold download_outcome, path_of in Hd. rewrite Hd. simpl.
  unfold download_failed_events, path_of. by rewrite <- !app_assoc.
Qed.

Lemma loop_body_upload_failed url state n m e :
  AStr url ∉ state ->
  download_outcome w (history m) url = None ->
  upload_outcome w (history m) url = Some e ->
  loop_body w GoogleDrive url (state, n) m
  = (Return (state, n), extend m (upload_failed_events url e)).
Proof.
  intros Hout Hd Hu. unfold loop_body. rewrite decide_False by done.
  unfold download_file, upload_to_drive. run_script.
  unfold download_outcome, path_of in Hd. rewrite Hd. simpl.
  unfold upload_outcome, path_of in Hu. rewrite <- !app_assoc. simpl.
  rewrite Hu. simpl.
  unfold upload_failed_events, path_of. by rewrite <- !app_assoc.
Qed.

Lemma loop_body_archived url state n m :
  AStr url ∉ state ->
  download_outcome w (history m) url = None ->
  upload_outcome w (history m) url = None ->
  loop_body w GoogleDrive url (state, n) m
  = (Return ({[AStr url]} ∪ state, S n), extend m (archived_events url)).
Proof.
  intros Hout Hd Hu. unfold loop_body. rewrite decide_False by done.
  unfold download_file, upload_to_drive. run_script.
  unfold download_outcome, path_of in Hd. rewrite Hd. simpl.
  unfold upload_outcome, path_of in Hu. rewrite <- !app_assoc. simpl.
  rewrite Hu. simpl.
  unfold archived_events, path_of. by rewrite <- !app_assoc.
Qed.

Lemma loop_body_iteration url state n m :
  exists vars evs,
    loop_body w GoogleDrive url (state, n) m = (Return vars, extend m evs) /\
    iteration w url state n m vars evs.
Proof.
  destruct (decide (AStr url ∈ state)) as [Hin|Hout].
  { exists (state, n), []. rewrite extend_nil.
    split; [by apply loop_body_skipped|by constructor]. }
  destruct (download_outcome w (history m) url) as [e|] eqn:Hd.
  { exists (state, n), (download_failed_events url e).
    split; [by apply loop_body_download_failed|by constructor]. }
  destruct (upload_outcome w (history m) url) as [e|] eqn:Hu.
  { exists (state, n), (upload_failed_events url e).
    split; [by apply loop_body_upload_failed|by constructor]. }
  exists ({[AStr url]} ∪ state, S n), (archived_events url).
  split; [by apply loop_body_archived|by constructor].
Qed.

Lemma archive_loop_cons url rest vars m :
  archive_loop w GoogleDrive (url :: rest) vars m
  = match loop_body w GoogleDrive url vars m with
    | (Return vars', m') => archive_loop w GoogleDrive rest vars' m'
    | (Raise e, m') => (Raise e, m')
    end.
Proof. reflexivity. Qed.


End Loop.

Section Run.
Context `{Library} (w : world).

Implicit Types (state : gset atom) (m : machine) (url : string).

Lemma count_app p (evs evs' : list event) :
  count p (evs ++ evs') = count p evs + count p evs'.
Proof. unfold count. by rewrite List.filter_app, List.length_app. Qed.

Lemma step_ok_unchanged url state n evs :
  count is_upload_ok evs = 0 ->
  count is_sleep evs = 0 ->
  count is_write evs = 0 ->
  count is_fetch evs = 0 ->
  step_ok url state n (state, n) evs.
Proof.
  intros Hu Hs Hw Hf. split; simpl; [done|by left|lia..|done|done].
Qed.

Lemma iteration_ok url state n m vars evs :
  iteration w url state n m vars evs -> step_ok url state n vars evs.
Proof.
  destruct 1 as [Hin|e Hout Hd|e Hout Hd Hu|Hout Hd Hu];
    [by apply step_ok_unchanged..|].
  split; simpl; try done.
  - apply union_subseteq_r.
  - intros x [Hx|Hx]%elem_of_union; [right|by left].
    by apply elem_of_singleton in Hx.
  - unfold count; simpl; lia.
  - rewrite size_union by (by apply disjoint_singleton_l).
    rewrite size_singleton. unfold count; simpl; lia.
Qed.

Lemma archive_loop_run candidates state n m :
  exists vars evs,
    archive_loop w GoogleDrive candidates (state, n) m = (Return vars, extend m evs) /\
    loop_ok candidates state n vars evs.
Proof.
  revert state n m. induction candidates as [|url rest IH]; intros state n m.
  - exists (state, n), []. rewrite extend_nil. split; [done|].
    split; simpl; try done; try lia. by left.
  - destruct (loop_body_iteration w url state n m) as ([state1 n1] & evs1 & Hbody & Hit).
    apply iteration_ok in Hit as [].
    destruct (IH state1 n1 (extend m evs1)) as ([state2 n2] & evs2 & Hrest & []).
    exists (state2, n2), (evs1 ++ evs2).
    rewrite archive_loop_cons, Hbody, Hrest, extend_extend. split; [done|].
    simpl in *. split; simpl; rewrite ?count_app; try lia.
    + by etrans.
    + intros x Hx. destruct (loop_new0 x Hx) as [Hx1|(u & Hu & ->)].
      * destruct (step_new0 x Hx1) as [?| ->]; [by left|].
        right. exists url. split; [left|done].
      * right. exists u. split; [by right|done].
Qed.

(** A reliable candidate is in the set when the loop ends. *)
Lemma archive_loop_reliable candidates state n m vars m' url :
  archive_loop w GoogleDrive candidates (state, n) m = (Return vars, m') ->
  url ∈ candidates ->
  reliable w url ->
  AStr url ∈ vars.1.
Proof.
  revert state n m. induction candidates as [|c rest IH]; intros state n m Hrun Hin Hrel.
  { by apply elem_of_nil in Hin. }
  rewrite archive_loop_cons in Hrun.
  destruct (loop_body_iteration w c state n m) as ([state1 n1] & evs1 & Hbody & Hit).
  rewrite Hbody in Hrun.
  destruct (decide (AStr url ∈ state1)) as [Hthere|Hnot].
  - destruct (archive_loop_run rest state1 n1 (extend m evs1)) as (vars2 & evs2 & Hrest & []).
    rewrite Hrest in Hrun. injection Hrun as <- _. by apply loop_grows0.
  - apply elem_of_cons in Hin as [->|Hin]; [|by eapply IH].
    exfalso. destruct (Hrel (history m)) as [Hd Hu].
    inversion Hit; subst; try done; try congruence.
    by apply Hnot, elem_of_union_l, elem_of_singleton.
Qed.

End Run.

(** ** The state store *)

Lemma load_state_machine m r m' : load_state m = (r, m') -> m' = m.
Proof.
  unfold load_state. destruct (state_file m) as [[|doc]|]; congruence.
Qed.

Lemma hashable_atom_json a : hashable (atom_json a) = Some a.
Proof. by destruct a. Qed.

Lemma py_set_dump (l : list atom) :
  py_set (JArr (map atom_json l)) = Return (list_to_set l).
Proof.
  unfold py_set. simpl. change (map atom_json l) with (atom_json <$> l).
  by rewrite (mapM_fmap_Some hashable atom_json l hashable_atom_json).
Qed.

Lemma py_set_urls (urls : list string) :
  py_set (JArr (map JStr urls)) = Return (list_to_set (map AStr urls)).
Proof.
  rewrite <- py_set_dump. by rewrite map_map.
Qed.

Section Store.
Context `{Library}.

Lemma py_set_list_of_set (h : list event) (state : gset atom) :
  py_set (JArr (list_of_set h state)) = Return state.
Proof.
  destruct (list_of_set_members h state) as (members & Hmembers & Hperm).
  unfold py_set. simpl. rewrite Hmembers. f_equal.
  etrans; [|apply list_to_set_elements_L].
  by apply list_to_set_perm_L.
Qed.

Lemma save_then_load state m :
  exists m',
    save_state state m = (Return tt, m') /\
    load_state m' = (Return state, m') /\
    history m' = history m ++ [WriteState (saved_document (history m) state)].
Proof.
  eexists. split; [reflexivity|]. split; [|done].
  unfold load_state. simpl. by rewrite py_set_list_of_set.
Qed.

End Store.

(** ** Runs of [main] *)

Section Main.
Context `{Library} (w : world).

Lemma main_run_spec m : main_run w m (main w m).
Proof.
  unfold main. run_script.
  destruct (load_state m) as [[loaded|e] m0] eqn:Hload;
    pose proof (load_state_machine _ _ _ Hload) as ->.
  2: { by apply LoadFailed. }
  unfold fetch_listing, find_candidates.
  destruct (listing w) as [| |anchors|anchors] eqn:Hlisting; run_script;
    rewrite <- ?app_assoc; simpl.
  { apply (FetchFailed w m loaded ConnectionError); [done|by rewrite Hlisting]. }
  { apply (FetchFailed w m loaded HTTPError); [done|by rewrite Hlisting]. }
  { by apply (ResolveFailed w m loaded anchors). }
  unfold get_drive. run_script.
  destruct (key_error (credentials w)) as [e|] eqn:Hkey; simpl;
    rewrite <- ?app_assoc; simpl.
  { by apply (KeyFailed w m loaded anchors e). }
  destruct (archive_loop_run w (collect_candidates anchors) loaded 0
              (extend m (prelude loaded)))
    as ([final n] & evs & Hloop & Hok).
  rewrite extend_extend in Hloop.
  pose proof (Completed w m loaded anchors final n evs Hload Hlisting Hkey Hloop Hok)
    as Hrun.
  unfold extend in Hloop. simpl in Hloop.
  change (Print (LoadedState (size loaded))) with (greeting loaded).
  change [greeting loaded; FetchListing None; LoadCredentials None]
    with (prelude loaded).
  rewrite Hloop. simpl. unfold save_state. simpl.
  rewrite <- !app_assoc. exact Hrun.
Qed.

End Main.

(** ** The claims about the loop *)

Section LoopClaims.
Context `{Library} (w : world).

Implicit Types (state : gset atom) (m : machine) (url : string).


Lemma attempt_succeeded h url :
  attempt w h url = None ->
  download_outcome w h url = None /\ upload_outcome w h url = None.
Proof.
  unfold attempt. by destruct (download_outcome w h url).
Qed.


Lemma archive_loop_skips url candidates state n m :
  AStr url ∈ state ->
  exists vars evs,
    archive_loop w GoogleDrive candidates (state, n) m = (Return vars, extend m evs) /\
    AStr url ∈ vars.1 /\
    count (is_download_of url) evs = 0.
Proof.
  revert state n m. induction candidates as [|c rest IH]; intros state n m Hin.
  - exists (state, n), []. by rewrite extend_nil.
  - destruct (loop_body_iteration w c state n m) as ([state1 n1] & evs1 & Hbody & Hit).
    assert (AStr url ∈ state1 /\ count (is_download_of url) evs1 = 0) as [Hin1 Hnone].
    { assert (c <> url -> String.eqb c url = false) as Hne by apply String.eqb_neq.
      inversion Hit; subst; (split; [set_solver|]);
        unfold count; simpl; try done;
        rewrite Hne; try done; intros ->; done. }
    destruct (IH state1 n1 (extend m evs1) Hin1) as (vars & evs2 & Hrest & Hin2 & Hnone2).
    exists vars, (evs1 ++ evs2).
    rewrite archive_loop_cons, Hbody, Hrest, extend_extend, count_app.
    repeat split; [done|lia].
Qed.

(** C3: a candidate whose URL is in the set is skipped: its iteration
    changes neither the set, nor the counter, nor the machine, so nothing
    is downloaded or uploaded for it, and no run over any candidate list
    ever downloads it.  With [A] in the set and [B] new, the list [A; B]
    downloads, uploads and adds [B] alone. *)
Theorem skip_behavior A B state n m :
  AStr A ∈ state ->
  loop_body w GoogleDrive A (state, n) m = (Return (state, n), m) /\
  (forall candidates,
     exists vars evs,
       archive_loop w GoogleDrive candidates (state, n) m = (Return vars, extend m evs) /\
       AStr A ∈ vars.1 /\
       count (is_download_of A) evs = 0) /\
  (AStr B ∉ state ->
   attempt w (history m) B = None ->
   archive_loop w GoogleDrive [A; B] (state, n) m
   = (Return ({[AStr B]} ∪ state, S n), extend m (archived_events B))).
Proof.
  intros Hin. split; [by apply loop_body_skipped|]. split.
  - intros candidates. by apply archive_loop_skips.
  - intros Hout Hok. apply attempt_succeeded in Hok as [Hd Hu].
    rewrite archive_loop_cons, loop_body_skipped by done.
    by rewrite archive_loop_cons, loop_body_archived.
Qed.

(** C5, as amended: the script waits the fixed delay of one second at the
    end of every iteration that archives its candidate, as the last thing
    it does there and once; an iteration that skips its candidate does
    nothing at all, so it does not wait. *)
Theorem inter_item_delay url state n m :
  (AStr url ∉ state ->
   attempt w (history m) url = None ->
   loop_body w GoogleDrive url (state, n) m
   = (Return ({[AStr url]} ∪ state, S n), extend m (archived_events url)) /\
   last (archived_events url) = Some (Sleep 1) /\
   count is_sleep (archived_events url) = 1) /\
  (AStr url ∈ state ->
   loop_body w GoogleDrive url (state, n) m = (Return (state, n), extend m [])).
Proof.
  split.
  - intros Hout Hok. apply attempt_succeeded in Hok as [Hd Hu].
    by rewrite loop_body_archived.
  - intros Hin. rewrite extend_nil. by apply loop_body_skipped.
Qed.

End LoopClaims.

(** ** The claims about a whole run *)

Section RunClaims.
Context `{Library} (w : world).

Implicit Types (state : gset atom) (m : machine) (url : string).

Lemma load_saved_document h final h' :
  load_state (Machine (Some (Document (saved_document h final))) h')
  = (Return final, Machine (Some (Document (saved_document h final))) h').
Proof.
  unfold load_state, saved_document. simpl.
  by rewrite py_set_list_of_set.
Qed.

(** A run that returns normally went through the loop and saved the set. *)
Lemma main_completed m m' :
  main w m = (Return tt, m') ->
  exists loaded anchors final n evs,
    load_state m = (Return loaded, m) /\
    listing w = Page anchors /\
    loop_ok (collect_candidates anchors) loaded 0 (final, n) evs /\
    archive_loop w GoogleDrive (collect_candidates anchors) (loaded, 0)
      (extend m (prelude loaded))
    = (Return (final, n), extend m (prelude loaded ++ evs)) /\
    m' = Machine
           (Some (Document
                    (saved_document (history m ++ prelude loaded ++ evs) final)))
           (history m
            ++ prelude loaded
            ++ evs
            ++ [WriteState (saved_document (history m ++ prelude loaded ++ evs) final);
                Print (NewPDFs n)]).
Proof.
  intros Hmain. pose proof (main_run_spec w m) as Hrun.
  rewrite Hmain in Hrun. inversion Hrun; subst.
  by exists loaded, anchors, final, n, evs.
Qed.

Lemma loop_body_archives url state n m :
  exists evs,
    loop_body w GoogleDrive url (state, n) m
    = (Return (if archives w m state url
               then ({[AStr url]} ∪ state, S n)
               else (state, n)),
       extend m evs) /\
    count is_upload_ok evs = (if archives w m state url then 1 else 0) /\
    (archives w m state url = true -> evs = archived_events url).
Proof.
  unfold archives, attempt.
  destruct (decide (AStr url ∈ state)) as [Hin|Hout].
  { exists []. rewrite extend_nil, loop_body_skipped by done.
    rewrite bool_decide_eq_false_2 by (by intros Hn). done. }
  rewrite bool_decide_eq_true_2 by done. cbn [andb].
  destruct (download_outcome w (history m) url) as [e|] eqn:Hd.
  { exists (download_failed_events url e).
    by rewrite (loop_body_download_failed w url state n m e). }
  destruct (upload_outcome w (history m) url) as [e|] eqn:Hu.
  { exists (upload_failed_events url e).
    by rewrite (loop_body_upload_failed w url state n m e). }
  exists (archived_events url). by rewrite loop_body_archived.
Qed.

Lemma archive_loop_all_reliable candidates state n m vars m' :
  archive_loop w GoogleDrive candidates (state, n) m = (Return vars, m') ->
  (forall url, url ∈ candidates -> reliable w url) ->
  vars.1 = state ∪ list_to_set (AStr <$> candidates).
Proof.
  intros Hrun Hrel.
  destruct (archive_loop_run w candidates state n m) as (vars' & evs & Hrun' & Hok).
  rewrite Hrun in Hrun'. injection Hrun' as <- _.
  apply set_eq. intros x. rewrite elem_of_union, elem_of_list_to_set, list_elem_of_fmap.
  split.
  - intros Hx. destruct (loop_new _ _ _ _ _ Hok x Hx) as [?|(url & Hurl & ->)];
      [by left|right; eauto].
  - intros [Hx|(url & -> & Hurl)].
    + by apply (loop_grows _ _ _ _ _ Hok).
    + by apply (archive_loop_reliable w candidates state n m vars m' url), Hrel.
Qed.

(** C9: an iteration adds one to the counter, and the URL to the set,
    exactly when its candidate is new and its download and upload both
    succeed, and that is when it makes its one successful upload (its events
    are then the download, the upload and the delay); the count
    printed at the end of a run is the number of these iterations and the
    number of URLs the run added: the size of the saved set minus the size
    of the loaded one, duplicates in the candidate list or not.  When the
    world refuses no candidate it is the number of distinct candidate URLs
    that were not loaded. *)
Theorem summary_count :
  (forall url state n m,
     exists evs,
       loop_body w GoogleDrive url (state, n) m
       = (Return (if archives w m state url
                  then ({[AStr url]} ∪ state, S n)
                  else (state, n)),
          extend m evs) /\
       count is_upload_ok evs = (if archives w m state url then 1 else 0) /\
       (archives w m state url = true -> evs = archived_events url)) /\
  (forall m m',
     main w m = (Return tt, m') ->
     exists loaded final n evs anchors,
       load_state m = (Return loaded, m) /\
       load_state m' = (Return final, m') /\
       listing w = Page anchors /\
       history m' = history m ++ evs ++ [Print (NewPDFs n)] /\
       n = count is_upload_ok evs /\
       n = size final - size loaded /\
       loaded ⊆ final /\
       ((forall url, url ∈ collect_candidates anchors -> reliable w url) ->
        final = loaded ∪ list_to_set (AStr <$> collect_candidates anchors) /\
        n = size (list_to_set (AStr <$> collect_candidates anchors) ∖ loaded))).
Proof.
  split; [apply loop_body_archives|].
  intros m m' Hmain.
  destruct (main_completed m m' Hmain)
    as (loaded & anchors & final & n & evs & Hload & Hlisting & Hok & Hloop & ->).
  pose proof Hok as []. simpl in *.
  exists loaded, final, n,
    (prelude loaded ++ evs
     ++ [WriteState (saved_document (history m ++ prelude loaded ++ evs) final)]),
    anchors.
  split; [done|]. split; [apply load_saved_document|]. split; [done|].
  split; [by rewrite <- !app_assoc|].
  split; [rewrite !count_app; unfold count at 1 3; simpl; lia|].
  split; [lia|]. split; [done|].
  intros Hrel.
  pose proof (archive_loop_all_reliable _ _ _ _ _ _ Hloop Hrel) as Hfinal.
  simpl in Hfinal. split; [done|].
  rewrite Hfinal in loop_size0. rewrite size_union_alt in loop_size0. lia.
Qed.

(** C10: the set a run saves contains the set it loaded. *)
Theorem monotone_growth m m' :
  main w m = (Return tt, m') ->
  exists loaded final h n,
    load_state m = (Return loaded, m) /\
    history m' = h ++ [WriteState (saved_document h final); Print (NewPDFs n)] /\
    state_file m' = Some (Document (saved_document h final)) /\
    load_state m' = (Return final, m') /\
    loaded ⊆ final.
Proof.
  intros Hmain.
  destruct (main_completed m m' Hmain)
    as (loaded & anchors & final & n & evs & Hload & _ & [] & _ & ->).
  exists loaded, final, (history m ++ prelude loaded ++ evs), n.
  split; [done|]. split; [by rewrite <- !app_assoc|]. split; [done|].
  split; [apply load_saved_document|done].
Qed.

(** C4: when the listing page cannot be fetched, the run ends with an
    exception, nothing is downloaded or uploaded, and the state file is
    neither written nor changed; when the state had loaded, the exception
    is the one of the fetch, raised right after it. *)
Theorem discovery_failure m e :
  fetch_error (listing w) = Some e ->
  exists e' evs,
    main w m = (Raise e', extend m evs) /\
    state_file (extend m evs) = state_file m /\
    count is_download evs = 0 /\
    count is_upload evs = 0 /\
    count is_write evs = 0 /\
    forall loaded,
      load_state m = (Return loaded, m) ->
      e' = e /\ evs = [greeting loaded; FetchListing (Some e)].
Proof.
  intros Hfetch. pose proof (main_run_spec w m) as Hrun.
  inversion Hrun as [e' Hload Hm|loaded e' Hload Hf Hm|loaded anchors Hload Hl Hm
                     |loaded anchors e' Hload Hl Hk Hm
                     |loaded anchors final n evs Hload Hl Hk Hloop Hok Hm].
  - exists e', []. rewrite extend_nil. repeat split; try done.
    all: congruence.
  - exists e', [greeting loaded; FetchListing (Some e')]. repeat split; try done.
    all: congruence.
  - rewrite Hl in Hfetch. done.
  - rewrite Hl in Hfetch. done.
  - rewrite Hl in Hfetch. done.
Qed.

(** C6, as amended: when the credential file is missing or invalid, the
    run ends with an exception before any download or upload and without
    writing the state file; the credentials are read after the state has
    been loaded and the listing page fetched, so when both of these
    succeed the exception is the one of the credential file, raised right
    after the fetch. *)
Theorem credentials_failure m e :
  key_error (credentials w) = Some e ->
  exists e' evs,
    main w m = (Raise e', extend m evs) /\
    state_file (extend m evs) = state_file m /\
    count is_download evs = 0 /\
    count is_upload evs = 0 /\
    count is_write evs = 0 /\
    forall loaded anchors,
      load_state m = (Return loaded, m) ->
      listing w = Page anchors ->
      e' = e /\
      evs = [greeting loaded; FetchListing None; LoadCredentials (Some e)].
Proof.
  intros Hkey. pose proof (main_run_spec w m) as Hrun.
  inversion Hrun as [e' Hload Hm|loaded e' Hload Hf Hm|loaded anchors Hload Hl Hm
                     |loaded anchors e' Hload Hl Hk Hm
                     |loaded anchors final n evs Hload Hl Hk Hloop Hok Hm].
  - exists e', []. rewrite extend_nil. repeat split; try done.
    all: congruence.
  - exists e', [greeting loaded; FetchListing (Some e')]. repeat split; try done.
    all: match goal with Hl : listing w = Page _ |- _ => rewrite Hl in Hf end; done.
  - exists ValueError, [greeting loaded; FetchListing None]. repeat split; try done.
    all: congruence.
  - exists e', [greeting loaded; FetchListing None; LoadCredentials (Some e')].
    repeat split; try done.
    all: congruence.
  - congruence.
Qed.

End RunClaims.

(** ** The claims about the state store *)

Lemma garbled_not_well_formed e : ~ well_formed (Garbled e).
Proof. by intros [urls Hc]. Qed.

Lemma mapM_hashable_refused (items : list json) :
  mapM hashable items = None <->
  existsb (fun v => match hashable v with None => true | Some _ => false end) items
  = true.
Proof.
  induction items as [|v items IH]; [done|].
  cbn [mapM existsb]. destruct (hashable v) as [a|]; simpl; [|done].
  rewrite <- IH. by destruct (mapM hashable items).
Qed.

Lemma mapM_hashable_strings (items : list string) :
  mapM hashable (map JStr items) = Some (map AStr items).
Proof.
  induction items as [|v items IH]; [done|].
  cbn [map mapM]. simpl. by rewrite IH.
Qed.

Lemma py_set_refuses (doc : json) :
  (exists state, py_set doc = Return state /\ unloadable doc = false) \/
  (py_set doc = Raise TypeError /\ unloadable doc = true).
Proof.
  destruct doc as [|b|z|s|items|members]; unfold py_set; simpl; try (by right).
  - left. rewrite <- (map_map (fun c => String c "") JStr).
    rewrite mapM_hashable_strings. eauto.
  - destruct (mapM hashable items) as [atoms|] eqn:Hitems.
    + left. exists (list_to_set atoms). split; [done|].
      destruct (existsb _ items) eqn:Hex; [|done].
      apply mapM_hashable_refused in Hex. congruence.
    + right. split; [done|]. by apply mapM_hashable_refused.
  - left. rewrite <- (map_map fst JStr).
    rewrite mapM_hashable_strings. eauto.
Qed.

Lemma py_set_keys (members : list (string * json)) :
  py_set (JObj members)
  = Return (list_to_set (map (fun kv => AStr kv.1) members)).
Proof.
  unfold py_set. simpl. rewrite <- (map_map fst JStr), mapM_hashable_strings.
  by rewrite map_map.
Qed.

Lemma py_set_characters (s : string) :
  py_set (JStr s)
  = Return (list_to_set
              (map (fun c => AStr (String c "")) (list_ascii_of_string s))).
Proof.
  unfold py_set. simpl.
  rewrite <- (map_map (fun c => String c "") JStr), mapM_hashable_strings.
  by rewrite map_map.
Qed.

(** C7, as amended: without a state file [load_state] returns the empty
    set; it raises only when the file exists and is not a JSON array of
    strings, which it loads as the set of those strings.  Contents that
    [json.load] raises on make it raise that exception (the decoding error,
    for text that is not JSON), and a null, a boolean, a number or an array
    holding an array or an object makes it raise the type error of [set()];
    [main] catches nothing that [load_state] raises: the run ends with that
    exception, the machine untouched.  A JSON object and a JSON string are
    not refused: they load as the set of the keys and as the set of the
    characters. *)
Theorem state_load_contract (m : machine) :
  (state_file m = None -> load_state m = (Return ∅, m)) /\
  (forall e m',
     load_state m = (Raise e, m') ->
     exists c, state_file m = Some c /\ ~ well_formed c) /\
  (forall urls,
     state_file m = Some (Document (JArr (map JStr urls))) ->
     load_state m = (Return (list_to_set (map AStr urls)), m)) /\
  (forall e, state_file m = Some (Garbled e) -> load_state m = (Raise e, m)) /\
  (forall doc,
     state_file m = Some (Document doc) ->
     unloadable doc = true ->
     load_state m = (Raise TypeError, m)) /\
  (forall members,
     state_file m = Some (Document (JObj members)) ->
     load_state m
     = (Return (list_to_set (map (fun kv => AStr kv.1) members)), m)) /\
  (forall s,
     state_file m = Some (Document (JStr s)) ->
     load_state m
     = (Return (list_to_set
                  (map (fun c => AStr (String c "")) (list_ascii_of_string s))),
        m)) /\
  (forall e (L : Library) (w : world),
     load_state m = (Raise e, m) -> main w m = (Raise e, m)).
Proof.
  split; [|split; [|split; [|split; [|split; [|split; [|split]]]]]].
  - unfold load_state. by intros ->.
  - unfold load_state. intros e m'.
    destruct (state_file m) as [[e'|doc]|] eqn:Hfile; [| |done].
    + intros _. exists (Garbled e'). split; [done|apply garbled_not_well_formed].
    + intros Hraise. exists (Document doc). split; [done|].
      intros [urls [= ->]]. by rewrite py_set_urls in Hraise.
  - unfold load_state. intros urls ->. by rewrite py_set_urls.
  - unfold load_state. by intros e ->.
  - unfold load_state. intros doc -> Hun.
    destruct (py_set_refuses doc) as [(state & _ & Hok)|[-> _]]; [congruence|done].
  - unfold load_state. intros members ->. by rewrite py_set_keys.
  - unfold load_state. intros s ->. by rewrite py_set_characters.
  - intros e L w Hload. pose proof (main_run_spec w m) as Hrun.
    inversion Hrun; congruence.
Qed.

Section StoreClaims.
Context `{Library}.

(** C8: saving a set of URL strings and loading it again gives the same
    set, in whatever order [list(state)] puts the URLs in the file: any
    arrangement of the elements in the saved array loads as that set. *)
Theorem state_round_trip (urls : gset string) (m : machine) :
  (exists m',
     save_state (url_set urls) m = (Return tt, m') /\
     load_state m' = (Return (url_set urls), m')) /\
  (forall (order : list atom) (h : list event),
     order ≡ₚ elements (url_set urls) ->
     load_state (Machine (Some (Document (JArr (map atom_json order)))) h)
     = (Return (url_set urls),
        Machine (Some (Document (JArr (map atom_json order)))) h)).
Proof.
  split.
  - destruct (save_then_load (url_set urls) m) as (m' & Hsave & Hload & _).
    by exists m'.
  - intros order h Hperm. unfold load_state. simpl. rewrite py_set_dump.
    do 2 f_equal. etrans; [|apply list_to_set_elements_L].
    by apply list_to_set_perm_L.
Qed.

End StoreClaims.

(** * Further properties of the code *)

(** ** File names *)

Lemma contains_char_cons (c d : ascii) (s : string) :
  contains (String c "") (String d s)
  = Ascii.eqb c d || contains (String c "") s.
Proof.
  cbn [contains startswith]. destruct (Ascii.eqb c d); [|done].
  by destruct s.
Qed.

Lemma contains_char_append (c : ascii) (a b : string) :
  contains (String c "") (a +:+ b)
  = contains (String c "") a || contains (String c "") b.
Proof.
  induction a as [|d a IH]; norm_append.
  - by destruct b.
  - by rewrite !contains_char_cons, IH, orb_assoc.
Qed.

Lemma basename_no_slash (p : string) : contains "/" (basename p) = false.
Proof.
  induction p as [|c p IH]; [done|].
  cbn [basename]. by destruct (contains "/" (String c p)) eqn:Hc.
Qed.

Lemma append_empty_r (s : string) : s +:+ "" = s.
Proof. induction s as [|c s IH]; [done|]. norm_append. by rewrite IH. Qed.

Lemma basename_split (p : string) :
  exists dir, p = dir +:+ basename p /\ (dir = "" \/ endswith dir "/" = true).
Proof.
  induction p as [|c p IH]; [by exists ""; split; [|left]|].
  cbn [basename]. destruct (contains "/" (String c p)) eqn:Hc.
  - destruct IH as (dir & Hp & Hdir). exists (String c dir). norm_append.
    split; [by rewrite <- Hp|]. right.
    destruct Hdir as [->|Hdir].
    + pose proof (basename_no_slash p) as Hno. norm_append. rewrite <- Hp in Hno.
      rewrite contains_char_cons, Hno, orb_false_r in Hc.
      by apply Ascii.eqb_eq in Hc as <-.
    + cbn [endswith]. by rewrite Hdir, orb_true_r.
  - exists "". split; [done|by left].
Qed.

Lemma basename_of_directory (q : string) : basename (q +:+ "/") = "".
Proof.
  induction q as [|c q IH]; [done|]. norm_append. cbn [basename].
  by rewrite contains_char_cons, contains_char_append, IH, !orb_true_r.
Qed.

Lemma basename_empty (p : string) :
  basename p = "" <-> p = "" \/ endswith p "/" = true.
Proof.
  split.
  - intros Hb. destruct (basename_split p) as (dir & Hp & Hdir).
    rewrite Hb, append_empty_r in Hp. subst dir. destruct Hdir; [by left|by right].
  - intros [->|[q ->]%endswith_spec]; [done|apply basename_of_directory].
Qed.

Lemma basename_clean (f : string) : contains "/" f = false -> basename f = f.
Proof. destruct f as [|c f]; [done|]. cbn [basename]. by intros ->. Qed.

Lemma basename_after_slash (dir f : string) :
  contains "/" f = false -> basename (dir +:+ "/" +:+ f) = f.
Proof.
  intros Hf. induction dir as [|c dir IH]; norm_append; cbn [basename].
  - rewrite contains_char_cons. simpl. by apply basename_clean.
  - by rewrite contains_char_cons, contains_char_append, contains_char_cons,
      Ascii.eqb_refl, !orb_true_r.
Qed.

Lemma startswith_char_contains (c : ascii) (s : string) :
  contains (String c "") s = false -> startswith s (String c "") = false.
Proof. destruct s as [|d s]; [done|]. cbn [contains]. by intros [-> _]%orb_false_iff. Qed.

Lemma before_first_no_sep (c : ascii) (s : string) :
  contains (String c "") (before_first c s) = false.
Proof.
  induction s as [|d s IH]; [done|]. cbn [before_first].
  destruct (Ascii.eqb d c) eqn:Hd; [done|].
  by rewrite contains_char_cons, IH, Ascii.eqb_sym, Hd.
Qed.

Lemma before_first_keeps_clean (d c : ascii) (s : string) :
  contains (String d "") s = false ->
  contains (String d "") (before_first c s) = false.
Proof.
  induction s as [|a s IH]; [done|]. cbn [before_first].
  rewrite contains_char_cons. intros [Ha Hs]%orb_false_iff.
  destruct (Ascii.eqb a c); [done|].
  by rewrite contains_char_cons, Ha, IH.
Qed.

Lemma length_substring_0 (n : nat) (s : string) :
  String.length (String.substring 0 n s) = Nat.min n (String.length s).
Proof.
  revert s. induction n as [|n IH]; intros [|c s]; simpl; try done.
  by rewrite IH.
Qed.

Lemma append_inj_length (a b c d : string) :
  String.length a = String.length c ->
  a +:+ b = c +:+ d -> a = c /\ b = d.
Proof.
  revert c. induction a as [|x a IH]; intros [|y c] Hlen Heq;
    norm_append; try discriminate; [done|].
  injection Heq as -> Heq. injection Hlen as Hlen.
  destruct (IH c Hlen Heq) as [-> ->]. done.
Qed.

Section FileNames.
Context `{Library}.

Lemma name_of_clean url :
  contains "/" (name_of url) = false /\ contains "?" (name_of url) = false.
Proof.
  unfold name_of. split; [|apply before_first_no_sep].
  apply before_first_keeps_clean.
  destruct (truthy _); [apply basename_no_slash|done].
Qed.

(** X1: the file name is the digest prefix, an underscore and a name that
    holds neither a slash nor a question mark, whatever the URL; so, the
    digest prefix having no slash, the download goes to a file directly
    inside [OUT_DIR], whose base name is that file name. *)
Theorem pdf_filename_parts url :
  pdf_filename url = digest_prefix url +:+ "_" +:+ name_of url /\
  contains "/" (name_of url) = false /\
  contains "?" (name_of url) = false /\
  (contains "/" (digest_prefix url) = false ->
   out_path (pdf_filename url) = OUT_DIR +:+ "/" +:+ pdf_filename url /\
   basename (out_path (pdf_filename url)) = pdf_filename url).
Proof.
  destruct (name_of_clean url) as [Hslash Hquery].
  split; [done|]. split; [done|]. split; [done|]. intros Hdigest.
  assert (contains "/" (pdf_filename url) = false) as Hclean.
  { change (pdf_filename url) with (digest_prefix url +:+ "_" +:+ name_of url).
    by rewrite !contains_char_append, Hdigest, Hslash. }
  assert (out_path (pdf_filename url) = OUT_DIR +:+ "/" +:+ pdf_filename url) as Hpath.
  { unfold out_path. by rewrite startswith_char_contains. }
  split; [done|]. rewrite Hpath. by apply basename_after_slash.
Qed.

(** X2: a URL whose path is empty or ends with a slash gets the name
    [drhp.pdf] after its digest prefix; any other URL gets the last segment
    of its path, cut at the first question mark, and that segment is not
    empty. *)
Theorem pdf_filename_fallback url :
  (urlparse_path url = "" \/ endswith (urlparse_path url) "/" = true ->
   pdf_filename url = digest_prefix url +:+ "_drhp.pdf") /\
  (urlparse_path url <> "" ->
   endswith (urlparse_path url) "/" = false ->
   basename (urlparse_path url) <> "" /\
   pdf_filename url
   = digest_prefix url +:+ "_" +:+ before_first "?" (basename (urlparse_path url))).
Proof.
  split.
  - intros Hdir%basename_empty. unfold pdf_filename. by rewrite Hdir.
  - intros Hne Hend.
    assert (basename (urlparse_path url) <> "") as Hb.
    { intros [?|?]%basename_empty; congruence. }
    split; [done|]. unfold pdf_filename, truthy.
    by destruct (String.eqb_spec (basename (urlparse_path url)) "").
Qed.

(** X3: when the digests have the eight characters the prefix takes, two
    URLs get the same file name exactly when they agree on both the digest
    prefix and the name: a common last path segment alone does not make two
    downloads collide. *)
Theorem pdf_filename_collision u1 u2 :
  8 <= String.length (sha1_hexdigest u1) ->
  8 <= String.length (sha1_hexdigest u2) ->
  pdf_filename u1 = pdf_filename u2 <->
  digest_prefix u1 = digest_prefix u2 /\ name_of u1 = name_of u2.
Proof.
  intros H1 H2. split.
  - change (pdf_filename u1) with (digest_prefix u1 +:+ "_" +:+ name_of u1).
    change (pdf_filename u2) with (digest_prefix u2 +:+ "_" +:+ name_of u2).
    intros Heq. apply append_inj_length in Heq as [Hd Hn].
    + split; [done|]. norm_append. by injection Hn.
    + unfold digest_prefix. rewrite !length_substring_0. lia.
  - intros [Hd Hn].
    change (pdf_filename u1) with (digest_prefix u1 +:+ "_" +:+ name_of u1).
    change (pdf_filename u2) with (digest_prefix u2 +:+ "_" +:+ name_of u2).
    by rewrite Hd, Hn.
Qed.

End FileNames.

(** ** Loading the state *)

(** X4: [load_state] raises exactly when [json.load] raises on the
    contents of the file, with the exception [json.load] raised, or when the
    document [json.load] returned is one that [set()] refuses, with a type
    error: null, a boolean, a number, or an array that holds an array or an
    object.  A JSON object or string never makes [set()] raise. *)
Theorem load_state_failure (m : machine) (e : error) :
  load_state m = (Raise e, m) <->
  state_file m = Some (Garbled e) \/
  (exists doc,
     state_file m = Some (Document doc) /\ unloadable doc = true /\ e = TypeError).
Proof.
  unfold load_state. destruct (state_file m) as [[e'|doc]|]; split.
  - intros [= <-]. by left.
  - intros [[= ->]|(doc & [=] & _)]. done.
  - intros Hraise. right. exists doc.
    destruct (py_set_refuses doc) as [(state & Hset & _)|[Hset Hun]];
      rewrite Hset in Hraise; [done|]. by injection Hraise as <-.
  - intros [[=]|(doc' & [= <-] & Hun & ->)].
    destruct (py_set_refuses doc) as [(state & _ & Hok)|[-> _]]; [congruence|done].
  - done.
  - intros [[=]|(doc & [=] & _)].
Qed.

(** ** Whole runs *)

Section WholeRuns.
Context `{Library} (w : world).

Implicit Types (state : gset atom) (m : machine) (url : string).

(** X6: when the state cannot be loaded, or the listing page cannot be
    fetched, or a link of the page cannot be resolved, or the credential
    file is missing or invalid, the run ends with an exception having made
    no download, no upload, no delay and no write of the state, and with the
    state file as it was. *)
Theorem early_abort_writes_nothing m :
  (exists e, load_state m = (Raise e, m)) \/
  (exists e, fetch_error (listing w) = Some e) \/
  (exists anchors, listing w = Unresolvable anchors) \/
  (exists e, key_error (credentials w) = Some e) ->
  exists e evs,
    main w m = (Raise e, extend m evs) /\
    state_file (extend m evs) = state_file m /\
    count is_download evs = 0 /\
    count is_upload evs = 0 /\
    count is_sleep evs = 0 /\
    count is_write evs = 0.
Proof.
  intros Hcause. pose proof (main_run_spec w m) as Hrun.
  inversion Hrun as [e Hload Hm|loaded e Hload Hf Hm|loaded anchors Hload Hl Hm
                     |loaded anchors e Hload Hl Hk Hm
                     |loaded anchors final n evs Hload Hl Hk Hloop Hok Hm].
  - exists e, []. by rewrite extend_nil.
  - by exists e, [greeting loaded; FetchListing (Some e)].
  - by exists ValueError, [greeting loaded; FetchListing None].
  - by exists e, [greeting loaded; FetchListing None; LoadCredentials (Some e)].
  - exfalso. destruct Hcause as [[e He]|[[e He]|[[a Ha]|[e He]]]]; try congruence.
    rewrite Hl in He. done.
Qed.

End WholeRuns.

(** ** The shape of a history *)

Section Traces.
Context `{Library} (w : world).

Implicit Types (state : gset atom) (m : machine) (url : string).

Lemma iteration_block url state n m vars evs :
  iteration w url state n m vars evs -> block_of url evs.
Proof.
  destruct 1; unfold block_of; eauto 6.
Qed.

Lemma archive_loop_blocks candidates state n m :
  exists vars blocks,
    archive_loop w GoogleDrive candidates (state, n) m
    = (Return vars, extend m (List.concat blocks)) /\
    Forall2 block_of candidates blocks /\
    loop_ok candidates state n vars (List.concat blocks).
Proof.
  revert state n m. induction candidates as [|url rest IH]; intros state n m.
  - exists (state, n), []. simpl List.concat. rewrite extend_nil.
    split; [done|]. split; [constructor|].
    split; simpl; try done; try lia. by left.
  - destruct (loop_body_iteration w url state n m) as ([state1 n1] & evs1 & Hbody & Hit).
    destruct (IH state1 n1 (extend m evs1)) as (vars & blocks & Hrest & Hblocks & Hok).
    exists vars, (evs1 :: blocks). simpl List.concat.
    rewrite archive_loop_cons, Hbody, Hrest, extend_extend. split; [done|].
    split; [constructor; [by eapply iteration_block|done]|].
    apply iteration_ok in Hit as []. destruct Hok. simpl in *.
    split; simpl; rewrite ?count_app; try lia.
    + by etrans.
    + intros x Hx. destruct (loop_new0 x Hx) as [Hx1|(u & Hu & ->)].
      * destruct (step_new0 x Hx1) as [?| ->]; [by left|].
        right. exists url. split; [left|done].
      * right. exists u. split; [by right|done].
Qed.

(** A completed run, with the loop it ran. *)
Lemma main_completed_blocks m m' :
  main w m = (Return tt, m') ->
  exists loaded anchors final n blocks,
    load_state m = (Return loaded, m) /\
    listing w = Page anchors /\
    Forall2 block_of (collect_candidates anchors) blocks /\
    loop_ok (collect_candidates anchors) loaded 0 (final, n) (List.concat blocks) /\
    archive_loop w GoogleDrive (collect_candidates anchors) (loaded, 0)
      (extend m (prelude loaded))
    = (Return (final, n), extend m (prelude loaded ++ List.concat blocks)) /\
    m' = Machine
           (Some (Document
                    (saved_document
                       (history m ++ prelude loaded ++ List.concat blocks) final)))
           (history m
            ++ prelude loaded
            ++ List.concat blocks
            ++ [WriteState
                  (saved_document
                     (history m ++ prelude loaded ++ List.concat blocks) final);
                Print (NewPDFs n)]).
Proof.
  intros Hmain.
  destruct (main_completed w m m' Hmain)
    as (loaded & anchors & final & n & evs & Hload & Hlisting & Hok & Hloop & ->).
  destruct (archive_loop_blocks (collect_candidates anchors) loaded 0
              (extend m (prelude loaded)))
    as (vars & blocks & Hblocks & Hshape & Hok').
  rewrite extend_extend, Hloop in Hblocks. injection Hblocks as <- Hevs.
  apply app_inv_head in Hevs. injection Hevs as ->.
  by exists loaded, anchors, final, n, blocks.
Qed.

(** X7: the history of a completed run is, after what was there before:
    the count of the loaded state, the fetch of the page and the reading of
    the credentials; then, for every candidate in document order, either
    nothing (skipped), a failed download with its error line, a download and
    a failed upload with its error line, or a download, an upload and the
    delay; then the write of the state and the count of new documents. *)
Theorem completed_run_history m m' :
  main w m = (Return tt, m') ->
  exists loaded anchors blocks doc n,
    load_state m = (Return loaded, m) /\
    listing w = Page anchors /\
    Forall2 block_of (collect_candidates anchors) blocks /\
    history m'
    = history m
      ++ [Print (LoadedState (size loaded)); FetchListing None; LoadCredentials None]
      ++ List.concat blocks
      ++ [WriteState doc; Print (NewPDFs n)] /\
    state_file m' = Some (Document doc).
Proof.
  intros Hmain.
  destruct (main_completed_blocks m m' Hmain)
    as (loaded & anchors & final & n & blocks & Hload & Hlisting & Hshape & _ & _ & ->).
  by exists loaded, anchors, blocks,
    (saved_document (history m ++ prelude loaded ++ List.concat blocks) final), n.
Qed.

Lemma uploads_follow_downloads_block url block rest :
  block_of url block ->
  uploads_follow_downloads None (block ++ rest)
  = uploads_follow_downloads None rest.
Proof.
  intros [-> | [[e ->] | [[e ->] | ->]]]; simpl; try done;
    by rewrite String.eqb_refl.
Qed.

Lemma uploads_follow_downloads_blocks candidates blocks rest :
  Forall2 block_of candidates blocks ->
  uploads_follow_downloads None (List.concat blocks ++ rest)
  = uploads_follow_downloads None rest.
Proof.
  induction 1 as [|url block candidates blocks Hblock _ IH]; [done|].
  simpl List.concat. rewrite <- app_assoc.
  by rewrite (uploads_follow_downloads_block url), IH.
Qed.

(** X8: whatever a run does and however it ends, every upload in its
    history is of the path that the download just before it wrote with
    success, and no download is uploaded twice: the script never uploads a
    file it has not just downloaded. *)
Theorem uploads_only_after_download m :
  exists evs,
    history (main w m).2 = history m ++ evs /\
    uploads_follow_downloads None evs = true.
Proof.
  destruct (main w m) as [[[]|e] m'] eqn:Hmain.
  - destruct (main_completed_blocks m m' Hmain)
      as (loaded & anchors & final & n & blocks & _ & _ & Hshape & _ & _ & ->).
    eexists. split; [done|]. simpl.
    by rewrite (uploads_follow_downloads_blocks _ _ _ Hshape).
  - pose proof (main_run_spec w m) as Hrun. rewrite Hmain in Hrun.
    inversion Hrun; subst.
    + exists []. by rewrite app_nil_r.
    + by eexists.
    + by eexists.
    + by eexists.
Qed.

Lemma block_effort url block :
  block_of url block ->
  count is_download block <= 1 /\
  count is_upload block <= count is_download block /\
  count is_upload_ok block <= count is_upload block /\
  count is_sleep block = count is_upload_ok block.
Proof.
  intros [-> | [[e ->] | [[e ->] | ->]]]; unfold count; simpl; lia.
Qed.

Lemma blocks_effort candidates blocks :
  Forall2 block_of candidates blocks ->
  count is_download (List.concat blocks) <= List.length candidates /\
  count is_upload (List.concat blocks) <= count is_download (List.concat blocks) /\
  count is_upload_ok (List.concat blocks) <= count is_upload (List.concat blocks) /\
  count is_sleep (List.concat blocks) = count is_upload_ok (List.concat blocks).
Proof.
  induction 1 as [|url block candidates blocks Hblock _ IH]; [by unfold count|].
  apply block_effort in Hblock. simpl List.concat. rewrite !count_app. simpl. lia.
Qed.

(** X9: the loop tries every candidate at most once: it makes no more
    downloads than there are candidates, no more uploads than downloads, and
    it waits one delay for each upload that succeeded, which is also what it
    adds to the counter. *)
Theorem loop_effort candidates state n m :
  exists vars evs,
    archive_loop w GoogleDrive candidates (state, n) m
    = (Return vars, extend m evs) /\
    count is_download evs <= List.length candidates /\
    count is_upload evs <= count is_download evs /\
    count is_upload_ok evs <= count is_upload evs /\
    count is_sleep evs = count is_upload_ok evs /\
    vars.2 = n + count is_upload_ok evs.
Proof.
  destruct (archive_loop_blocks candidates state n m)
    as (vars & blocks & Hrun & Hshape & []).
  exists vars, (List.concat blocks). split; [done|].
  destruct (blocks_effort _ _ Hshape) as (? & ? & ? & ?). done.
Qed.

End Traces.

Lemma main_returns_key `{Library} (w : world) (m : machine) :
  (exists m', main w m = (Return tt, m')) -> key_error (credentials w) = None.
Proof.
  intros [m' Hmain]. pose proof (main_run_spec w m) as Hrun.
  rewrite Hmain in Hrun. by inversion Hrun.
Qed.

(** ** What a run records *)

Section Records.
Context `{Library} (w : world).

Implicit Types (state : gset atom) (m : machine) (url : string).

Lemma block_reports url state n m vars evs :
  iteration w url state n m vars evs ->
  AStr url ∈ vars.1 \/ 0 < count (is_error_for url) evs.
Proof.
  destruct 1 as [Hin|e Hout Hd|e Hout Hd Hu|Hout Hd Hu]; simpl.
  - by left.
  - right. unfold count. simpl. rewrite String.eqb_refl. simpl. lia.
  - right. unfold count. simpl. rewrite String.eqb_refl. simpl. lia.
  - left. by apply elem_of_union_l, elem_of_singleton.
Qed.

Lemma archive_loop_accounted candidates state n m :
  exists vars evs,
    archive_loop w GoogleDrive candidates (state, n) m
    = (Return vars, extend m evs) /\
    forall url,
      url ∈ candidates ->
      AStr url ∈ vars.1 \/ 0 < count (is_error_for url) evs.
Proof.
  revert state n m. induction candidates as [|c rest IH]; intros state n m.
  - exists (state, n), []. rewrite extend_nil. split; [done|].
    intros url Hin. by apply elem_of_nil in Hin.
  - destruct (loop_body_iteration w c state n m) as ([state1 n1] & evs1 & Hbody & Hit).
    destruct (IH state1 n1 (extend m evs1)) as (vars & evs2 & Hrest & Hall).
    destruct (archive_loop_run w rest state1 n1 (extend m evs1))
      as (vars' & evs2' & Hrest' & Hok).
    rewrite Hrest in Hrest'. injection Hrest' as <- _.
    exists vars, (evs1 ++ evs2).
    rewrite archive_loop_cons, Hbody, Hrest, extend_extend. split; [done|].
    intros url [->|Hin]%elem_of_cons; rewrite count_app.
    + destruct (block_reports _ _ _ _ _ _ Hit) as [Hthere|Herr]; [left|right; lia].
      by apply (loop_grows _ _ _ _ _ Hok).
    + destruct (Hall url Hin) as [?|?]; [by left|right; lia].
Qed.

(** X10: after a completed run every candidate of the page is accounted
    for: its URL is in the saved set, or the run printed an error line for
    it. *)
Theorem candidates_recorded_or_reported m m' :
  main w m = (Return tt, m') ->
  exists anchors final evs,
    listing w = Page anchors /\
    load_state m' = (Return final, m') /\
    history m' = history m ++ evs /\
    forall url,
      url ∈ collect_candidates anchors ->
      AStr url ∈ final \/ 0 < count (is_error_for url) evs.
Proof.
  intros Hmain.
  destruct (main_completed_blocks w m m' Hmain)
    as (loaded & anchors & final & n & blocks & Hload & Hlisting & _ & _ & Hloop & ->).
  destruct (archive_loop_accounted (collect_candidates anchors) loaded 0
              (extend m (prelude loaded)))
    as (vars & evs & Hrun & Hall).
  rewrite extend_extend, Hloop in Hrun. injection Hrun as <- Hevs.
  apply app_inv_head in Hevs. injection Hevs as <-.
  exists anchors, final,
    (prelude loaded ++ List.concat blocks
     ++ [WriteState
           (saved_document (history m ++ prelude loaded ++ List.concat blocks) final);
         Print (NewPDFs n)]).
  split; [done|]. split; [apply load_saved_document|]. split; [done|].
  intros url Hin. destruct (Hall url Hin) as [?|Herr]; [by left|right].
  rewrite !count_app. lia.
Qed.

(** X11: a completed run saves nothing but what it loaded and resolved
    URLs of links of the page that pass the selection: no other link of the
    page, and nothing else, ever enters the state file. *)
Theorem only_candidates_recorded m m' :
  main w m = (Return tt, m') ->
  exists loaded anchors final,
    load_state m = (Return loaded, m) /\
    listing w = Page anchors /\
    load_state m' = (Return final, m') /\
    forall x,
      x ∈ final ->
      x ∈ loaded \/
      exists a, a ∈ anchors /\ selected a = true /\ x = AStr (resolve a).
Proof.
  intros Hmain.
  destruct (main_completed w m m' Hmain)
    as (loaded & anchors & final & n & evs & Hload & Hlisting & Hok & _ & ->).
  exists loaded, anchors, final.
  split; [done|]. split; [done|]. split; [apply load_saved_document|].
  intros x Hx. destruct (loop_new _ _ _ _ _ Hok x Hx) as [?|(url & Hurl & ->)]; [by left|].
  right. unfold collect_candidates in Hurl. rewrite collect_from in Hurl.
  simpl in Hurl. apply list_elem_of_In, in_map_iff in Hurl as (a & <- & Ha).
  apply filter_In in Ha as [Ha Hsel]. exists a. by rewrite list_elem_of_In.
Qed.

Lemma archive_loop_all_known candidates state n m :
  (forall url, url ∈ candidates -> AStr url ∈ state) ->
  archive_loop w GoogleDrive candidates (state, n) m = (Return (state, n), m).
Proof.
  induction candidates as [|url rest IH]; intros Hknown; [done|].
  rewrite archive_loop_cons, loop_body_skipped; [|apply Hknown; left].
  apply IH. intros u Hu. apply Hknown. by right.
Qed.

Lemma main_all_known m loaded anchors :
  load_state m = (Return loaded, m) ->
  listing w = Page anchors ->
  key_error (credentials w) = None ->
  (forall url, url ∈ collect_candidates anchors -> AStr url ∈ loaded) ->
  main w m
  = (Return tt,
     Machine
       (Some (Document (saved_document (history m ++ prelude loaded) loaded)))
       (history m
        ++ prelude loaded
        ++ [WriteState (saved_document (history m ++ prelude loaded) loaded);
            Print (NewPDFs 0)])).
Proof.
  intros Hload Hlisting Hkey Hknown. pose proof (main_run_spec w m) as Hrun.
  inversion Hrun as [e Hl Hm|loaded' e Hl Hf Hm|loaded' anchors' Hl Hp Hm
                     |loaded' anchors' e Hl Hp Hk Hm
                     |loaded' anchors' final n evs Hl Hp Hk Hloop Hok Hm].
  - congruence.
  - rewrite Hlisting in Hf. done.
  - congruence.
  - congruence.
  - assert (loaded' = loaded) as -> by congruence.
    assert (anchors' = anchors) as -> by congruence.
    rewrite archive_loop_all_known in Hloop by done.
    injection Hloop as <- <- Hevs.
    apply app_inv_head in Hevs. injection Hevs as <-. done.
Qed.

(** X12: a run whose loaded state holds every candidate of the page makes
    no download, no upload and no delay: it writes the loaded set back and
    reports zero new documents. *)
Theorem nothing_new_run m loaded anchors :
  load_state m = (Return loaded, m) ->
  listing w = Page anchors ->
  key_error (credentials w) = None ->
  (forall url, url ∈ collect_candidates anchors -> AStr url ∈ loaded) ->
  main w m
  = (Return tt,
     Machine
       (Some (Document
                (saved_document
                   (history m
                    ++ [Print (LoadedState (size loaded)); FetchListing None;
                        LoadCredentials None])
                   loaded)))
       (history m
        ++ [Print (LoadedState (size loaded)); FetchListing None; LoadCredentials None;
            WriteState
              (saved_document
                 (history m
                  ++ [Print (LoadedState (size loaded)); FetchListing None;
                      LoadCredentials None])
                 loaded);
            Print (NewPDFs 0)])).
Proof. apply main_all_known. Qed.

(** X13: running twice is idempotent: after a completed run on a page all
    of whose candidates the world never refuses, a second run in the same
    world downloads and uploads nothing and reports zero new documents; the
    state file it writes holds the same set as the one the first run wrote,
    in whatever order. *)
Theorem second_run_idempotent m m1 anchors :
  main w m = (Return tt, m1) ->
  listing w = Page anchors ->
  (forall url, url ∈ collect_candidates anchors -> reliable w url) ->
  exists final m2 doc,
    load_state m1 = (Return final, m1) /\
    main w m1 = (Return tt, m2) /\
    history m2
    = history m1
      ++ [Print (LoadedState (size final)); FetchListing None; LoadCredentials None;
          WriteState doc; Print (NewPDFs 0)] /\
    state_file m2 = Some (Document doc) /\
    load_state m2 = (Return final, m2).
Proof.
  intros Hmain Hlisting Hrel.
  destruct (main_completed_blocks w m m1 Hmain)
    as (loaded & anchors' & final & n & blocks & Hload & Hlisting' & _ & _ & Hloop & ->).
  assert (anchors' = anchors) as -> by congruence.
  assert (key_error (credentials w) = None) as Hkey.
  { apply (main_returns_key w m). eauto. }
  eexists final, _, _. split; [apply load_saved_document|].
  split.
  { apply (main_all_known _ final anchors); try done; [apply load_saved_document|].
    intros url Hin.
    by apply (archive_loop_reliable w _ _ _ _ (final, n) _ url Hloop), Hrel. }
  split; [done|]. split; [done|]. apply load_saved_document.
Qed.

End Records.

(** ** From one run to the next *)

Section NextRun.
Context `{Library}.

Implicit Types (state : gset atom) (m : machine) (url : string).

Lemma main_skips_recorded (w : world) m loaded url :
  load_state m = (Return loaded, m) ->
  AStr url ∈ loaded ->
  exists evs,
    history (main w m).2 = history m ++ evs /\
    count (is_download_of url) evs = 0.
Proof.
  intros Hload Hin. pose proof (main_run_spec w m) as Hrun.
  inversion Hrun as [e Hl Hm|loaded' e Hl Hf Hm|loaded' anchors Hl Hp Hm
                     |loaded' anchors e Hl Hp Hk Hm
                     |loaded' anchors final n evs Hl Hp Hk Hloop Hok Hm].
  - exists []. by rewrite app_nil_r.
  - by eexists.
  - by eexists.
  - by eexists.
  - assert (loaded' = loaded) as -> by congruence.
    destruct (archive_loop_skips w url (collect_candidates anchors) loaded 0
                (extend m (prelude loaded)) Hin) as (vars & evs' & Hrun' & _ & Hnone).
    rewrite extend_extend, Hloop in Hrun'. injection Hrun' as _ Hevs.
    apply app_inv_head in Hevs. injection Hevs as <-.
    simpl.
    exists (prelude loaded ++ evs
            ++ [WriteState (saved_document (history m ++ prelude loaded ++ evs) final);
                Print (NewPDFs n)]).
    split; [done|]. by rewrite !count_app, Hnone.
Qed.

(** X14: what a completed run saved, no later run downloads again: for
    every URL in the state file the run wrote, a next run from that
    machine, in whatever world and however it ends, makes no download of
    that URL. *)
Theorem saved_never_downloaded_again (w : world) m m1 :
  main w m = (Return tt, m1) ->
  exists final,
    load_state m1 = (Return final, m1) /\
    forall (w' : world) url,
      AStr url ∈ final ->
      exists evs,
        history (main w' m1).2 = history m1 ++ evs /\
        count (is_download_of url) evs = 0.
Proof.
  intros Hmain.
  destruct (main_completed w m m1 Hmain)
    as (loaded & anchors & final & n & evs & _ & _ & _ & _ & ->).
  exists final. split; [apply load_saved_document|].
  intros w' url Hin. apply (main_skips_recorded w' _ final); [|done].
  apply load_saved_document.
Qed.

Lemma hashed_member (items : list json) (members : list atom) (v : json) :
  Forall2 (fun v a => hashable v = Some a) items members ->
  v ∈ items ->
  exists a, a ∈ members /\ hashable v = Some a.
Proof.
  induction 1 as [|v' a items members Hv _ IH]; intros Hin.
  - by apply elem_of_nil in Hin.
  - apply elem_of_cons in Hin as [->|Hin].
    + exists a. split; [left|done].
    + destruct (IH Hin) as (a' & Ha' & Hv'). exists a'. split; [by right|done].
Qed.

Lemma hashed_NoDup (items : list json) (members : list atom) :
  Forall2 (fun v a => hashable v = Some a) items members ->
  NoDup members -> NoDup items.
Proof.
  induction 1 as [|v a items members Hv Hrest IH]; intros Hnodup; [constructor|].
  apply NoDup_cons in Hnodup as [Hfresh Hnodup]. apply NoDup_cons.
  split; [|by apply IH].
  intros Hin. destruct (hashed_member _ _ _ Hrest Hin) as (a' & Ha' & Hv').
  congruence.
Qed.

Lemma hashed_strings (items : list json) (members : list atom) :
  Forall2 (fun v a => hashable v = Some a) items members ->
  Forall (fun a => exists s, a = AStr s) members ->
  exists urls, items = map JStr urls.
Proof.
  induction 1 as [|v a items members Hv _ IH]; intros Hall; [by exists []|].
  apply Forall_cons in Hall as [[s ->] Hall].
  destruct (IH Hall) as [urls ->]. exists (s :: urls).
  destruct v as [|[]|z|s'|l|o]; simpl in Hv; try discriminate.
  by injection Hv as ->.
Qed.

(** X15: the file a completed run writes is a JSON array without repeated
    items; and when the run started without a state file, or from a JSON
    array of strings, the file it writes is a JSON array of strings again. *)
Theorem saved_file_format (w : world) m m' :
  main w m = (Return tt, m') ->
  exists items,
    state_file m' = Some (Document (JArr items)) /\
    NoDup items /\
    (state_file m = None \/ (exists c, state_file m = Some c /\ well_formed c) ->
     well_formed (Document (JArr items))).
Proof.
  intros Hmain.
  destruct (main_completed w m m' Hmain)
    as (loaded & anchors & final & n & evs & Hload & _ & Hok & _ & ->).
  set (h := history m ++ prelude loaded ++ evs).
  destruct (list_of_set_members h final) as (members & Hmembers & Hperm).
  apply mapM_Some_1 in Hmembers.
  exists (list_of_set h final). split; [done|]. split.
  - apply (hashed_NoDup _ members); [done|].
    rewrite Hperm. apply NoDup_elements.
  - intros Hstart.
    assert (forall x, x ∈ loaded -> exists s, x = AStr s) as Hloaded.
    { unfold load_state in Hload. destruct Hstart as [Hnone|(c & Hsome & urls & ->)].
      - rewrite Hnone in Hload. injection Hload as <-. intros x Hx.
        by apply not_elem_of_empty in Hx.
      - rewrite Hsome, py_set_urls in Hload. injection Hload as <-.
        intros x Hx. apply elem_of_list_to_set, list_elem_of_In, in_map_iff in Hx.
        destruct Hx as (s & <- & _). by exists s. }
    destruct (hashed_strings _ members Hmembers) as [urls Hurls].
    + apply Forall_forall. intros x Hx.
      rewrite Hperm in Hx. apply elem_of_elements in Hx.
      destruct (loop_new _ _ _ _ _ Hok x Hx) as [Hl|(url & _ & ->)]; [by apply Hloaded|].
      by exists url.
    + exists urls. by rewrite Hurls.
Qed.

(** X16: the candidates of a page are those of its first part followed by
    those of the rest: links are judged one by one, a link listed twice is a
    candidate twice, and there are never more candidates than links. *)
Theorem collect_candidates_app (page1 page2 : list anchor) :
  collect_candidates (page1 ++ page2)
  = collect_candidates page1 ++ collect_candidates page2 /\
  List.length (collect_candidates page1) <= List.length page1.
Proof.
  unfold collect_candidates. rewrite !collect_from. simpl. split.
  - by rewrite List.filter_app, map_app.
  - rewrite length_map. apply List.filter_length_le.
Qed.

End NextRun.

(** ** The theorems at work, on [sample_library] *)

Import Scenario.
#[local] Existing Instance sample_library.

(** The sample library against CPython: digests, file names, resolution. *)
Example sha1_abc :
  Sha1.hexdigest "abc" = "a9993e364706816aba3e25717850c26c9cd0d89d".
Proof. by vm_compute. Qed.

Example pdf_filename_of_A : pdf_filename A = "62e75ce1_alpha-drhp.pdf".
Proof. by vm_compute. Qed.

Example pdf_filename_of_directory :
  pdf_filename "https://x.org/a/" = "fe66b542_drhp.pdf".
Proof. by vm_compute. Qed.

Example urljoin_rooted :
  urljoin SEBI_URL "/sebi_data/a/b.pdf?x=1"
  = "https://www.sebi.gov.in/sebi_data/a/b.pdf?x=1".
Proof. by vm_compute. Qed.

(** The selection on the four combinations of extension and keyword, and on
    an upper-case extension followed by a query. *)
Example selection_matrix :
  collect_candidates
    [Anchor "Gamma Ltd - DRHP" "gamma.pdf";
     Anchor "Gamma Ltd - DRHP" "gamma.html";
     Anchor "Annual report" "report.pdf";
     Anchor "Annual report" "report.html";
     Anchor "Draft Offer Document" "/docs/DELTA.PDF?download=1"]
  = ["https://www.sebi.gov.in/filings/gamma.pdf";
     "https://www.sebi.gov.in/docs/DELTA.PDF?download=1"].
Proof. by vm_compute. Qed.

(** A whole run: [A] is refused and only logged, [B] is archived and saved. *)
Example run_with_alpha_down :
  main alpha_down fresh
  = (Return tt,
     Machine (Some (Document (JArr [JStr B])))
       [Print (LoadedState 0); FetchListing None; LoadCredentials None;
        Print (Downloading A);
        Download A "drhps/62e75ce1_alpha-drhp.pdf" (Some HTTPError);
        Print (ErrorWith A HTTPError);
        Print (Downloading B);
        Download B "drhps/7ed95b55_beta-drhp.pdf" None;
        Print (Saved "drhps/7ed95b55_beta-drhp.pdf");
        Upload "drhps/7ed95b55_beta-drhp.pdf" "7ed95b55_beta-drhp.pdf" None;
        Print (UploadedToDrive "7ed95b55_beta-drhp.pdf");
        Sleep 1;
        WriteState (JArr [JStr B]);
        Print (NewPDFs 1)]).
Proof. by vm_compute. Qed.

(** C2 as stated fails in both directions: the script keeps a link whose
    keyword only appears across the space it puts between text and href, and
    drops one whose keyword only appears when the two are glued together. *)
Lemma claimed_selection_differs :
  collect_candidates [Anchor "offer" "document.pdf"]
    = ["https://www.sebi.gov.in/filings/document.pdf"] /\
  claimed_candidates [Anchor "offer" "document.pdf"] = [] /\
  collect_candidates [Anchor "dr" "hp.pdf"] = [] /\
  claimed_candidates [Anchor "dr" "hp.pdf"]
    = ["https://www.sebi.gov.in/filings/hp.pdf"].
Proof. by vm_compute. Qed.


Lemma skip_behavior_witness :
  AStr A ∈ url_set {[A]} /\
  loop_body fine GoogleDrive A (url_set {[A]}, 0) fresh = (Return (url_set {[A]}, 0), fresh) /\
  (forall candidates,
     exists vars evs,
       archive_loop fine GoogleDrive candidates (url_set {[A]}, 0) fresh
         = (Return vars, extend fresh evs) /\
       AStr A ∈ vars.1 /\
       count (is_download_of A) evs = 0) /\
  (AStr B ∉ url_set {[A]} ->
   attempt fine (history fresh) B = None ->
   archive_loop fine GoogleDrive [A; B] (url_set {[A]}, 0) fresh
   = (Return ({[AStr B]} ∪ url_set {[A]}, 1), extend fresh (archived_events B))).
Proof.
  assert (AStr A ∈ url_set {[A]}) as Hin.
  { unfold url_set. apply elem_of_map. exists A. split; [done|]. by apply elem_of_singleton. }
  split; [exact Hin|].
  exact (skip_behavior fine A B (url_set {[A]}) 0 fresh Hin).
Defined.

Lemma inter_item_delay_witness :
  (loop_body fine GoogleDrive B (∅, 0) fresh
   = (Return ({[AStr B]} ∪ ∅, 1), extend fresh (archived_events B)) /\
   last (archived_events B) = Some (Sleep 1) /\
   count is_sleep (archived_events B) = 1) /\
  loop_body fine GoogleDrive B ({[AStr B]}, 1) fresh = (Return ({[AStr B]}, 1), extend fresh []).
Proof.
  split.
  - apply (proj1 (inter_item_delay fine B ∅ 0 fresh)).
    + apply not_elem_of_empty.
    + reflexivity.
  - apply (proj2 (inter_item_delay fine B {[AStr B]} 1 fresh)).
    by apply elem_of_singleton.
Defined.

(** C5 as stated fails: two skipped candidates in a row leave the history
    empty, so nothing waited between them; and after a failed download the
    next thing the script does is the next download. *)
Lemma inter_item_delay_fails :
  archive_loop fine GoogleDrive [A; B] ({[AStr A; AStr B]}, 0) fresh
    = (Return ({[AStr A; AStr B]}, 0), fresh) /\
  history fresh = [] /\
  history (archive_loop alpha_down GoogleDrive [A; B] (∅, 0) fresh).2
    = [Print (Downloading A); Download A (path_of A) (Some HTTPError);
       Print (ErrorWith A HTTPError);
       Print (Downloading B); Download B (path_of B) None;
       Print (Saved (path_of B)); Upload (path_of B) (pdf_filename B) None;
       Print (UploadedToDrive (pdf_filename B)); Sleep 1].
Proof.
  split; [|split; [done|by vm_compute]].
  rewrite archive_loop_cons, loop_body_skipped by set_solver.
  by rewrite archive_loop_cons, loop_body_skipped by set_solver.
Qed.

Lemma summary_count_witness :
  exists loaded final n evs anchors,
    load_state seen_A = (Return loaded, seen_A) /\
    load_state (main repeated seen_A).2 = (Return final, (main repeated seen_A).2) /\
    listing repeated = Page anchors /\
    history (main repeated seen_A).2 = history seen_A ++ evs ++ [Print (NewPDFs n)] /\
    n = count is_upload_ok evs /\
    n = size final - size loaded /\
    loaded ⊆ final /\
    ((forall url, url ∈ collect_candidates anchors -> reliable repeated url) ->
     final = loaded ∪ list_to_set (AStr <$> collect_candidates anchors) /\
     n = size (list_to_set (AStr <$> collect_candidates anchors) ∖ loaded)).
Proof.
  apply (proj2 (summary_count repeated) seen_A (main repeated seen_A).2).
  by vm_compute.
Defined.

(** The run of that witness: four candidates, [A] known and [B] listed
    twice, and one new document reported. *)
Example run_with_duplicates :
  collect_candidates (page ++ page) = [A; B; A; B] /\
  main repeated seen_A
  = (Return tt,
     Machine (Some (Document (JArr [JStr A; JStr B])))
       ([Print (LoadedState 1); FetchListing None; LoadCredentials None]
        ++ archived_events B
        ++ [WriteState (JArr [JStr A; JStr B]); Print (NewPDFs 1)])).
Proof. by vm_compute. Qed.

Lemma monotone_growth_witness :
  exists loaded final h n,
    load_state seen_A = (Return loaded, seen_A) /\
    history (main alpha_down seen_A).2
    = h ++ [WriteState (saved_document h final); Print (NewPDFs n)] /\
    state_file (main alpha_down seen_A).2 = Some (Document (saved_document h final)) /\
    load_state (main alpha_down seen_A).2 = (Return final, (main alpha_down seen_A).2) /\
    loaded ⊆ final.
Proof.
  apply (monotone_growth alpha_down seen_A (main alpha_down seen_A).2).
  by vm_compute.
Defined.

Lemma discovery_failure_witness :
  exists e' evs,
    main site_down seen_A = (Raise e', extend seen_A evs) /\
    state_file (extend seen_A evs) = state_file seen_A /\
    count is_download evs = 0 /\
    count is_upload evs = 0 /\
    count is_write evs = 0 /\
    forall loaded,
      load_state seen_A = (Return loaded, seen_A) ->
      e' = ConnectionError /\
      evs = [greeting loaded; FetchListing (Some ConnectionError)].
Proof.
  apply (discovery_failure site_down seen_A ConnectionError).
  reflexivity.
Defined.

Lemma credentials_failure_witness :
  exists e' evs,
    main no_key fresh = (Raise e', extend fresh evs) /\
    state_file (extend fresh evs) = state_file fresh /\
    count is_download evs = 0 /\
    count is_upload evs = 0 /\
    count is_write evs = 0 /\
    forall loaded anchors,
      load_state fresh = (Return loaded, fresh) ->
      listing no_key = Page anchors ->
      e' = FileNotFoundError /\
      evs = [greeting loaded; FetchListing None; LoadCredentials (Some FileNotFoundError)].
Proof.
  apply (credentials_failure no_key fresh FileNotFoundError).
  reflexivity.
Defined.

(** C6 as stated fails: with the credential file missing, the listing page
    has been fetched, successfully, by the time the run aborts. *)
Lemma credentials_read_after_fetch :
  main no_key fresh
  = (Raise FileNotFoundError,
     Machine None
       [Print (LoadedState 0); FetchListing None;
        LoadCredentials (Some FileNotFoundError)]).
Proof. by vm_compute. Qed.

Lemma state_load_contract_witness :
  load_state fresh = (Return ∅, fresh) /\
  (exists c, state_file number_file = Some c /\ ~ well_formed c) /\
  load_state seen_A = (Return (list_to_set (map AStr [A])), seen_A) /\
  load_state garbled = (Raise JSONDecodeError, garbled) /\
  load_state number_file = (Raise TypeError, number_file) /\
  main fine garbled = (Raise JSONDecodeError, garbled) /\
  main fine number_file = (Raise TypeError, number_file).
Proof.
  pose proof (state_load_contract fresh) as (Hfresh & _).
  pose proof (state_load_contract number_file) as (_ & Hraise & _ & _ & Htype & _ & _ & Hrun).
  pose proof (state_load_contract seen_A) as (_ & _ & Hurls & _).
  pose proof (state_load_contract garbled) as (_ & _ & _ & Hgarbled & _ & _ & _ & Hrun').
  split; [by apply Hfresh|].
  split; [by apply (Hraise TypeError number_file)|].
  split; [by apply (Hurls [A])|].
  split; [by apply Hgarbled|].
  split; [by apply (Htype (JInt 5))|].
  split; [by apply Hrun'|by apply Hrun].
Defined.

(** C7 as stated fails under either reading of "malformed".  A file that
    holds an empty object or an empty string is no array of strings, and it
    loads, silently, as the empty set; a file that holds a number is JSON,
    and loading it fails, with a type error and not with a parse error. *)
Lemma corrupt_state_loads_or_mistypes :
  ~ well_formed (Document (JObj [])) /\
  load_state empty_object_file = (Return ∅, empty_object_file) /\
  ~ well_formed (Document (JStr "")) /\
  load_state empty_string_file = (Return ∅, empty_string_file) /\
  load_state number_file = (Raise TypeError, number_file).
Proof.
  split; [by intros [[|u urls] [=]]|]. split; [done|].
  split; [by intros [[|u urls] [=]]|]. by split.
Qed.

Lemma state_round_trip_witness :
  (exists m',
     save_state (url_set {[A; B]}) fresh = (Return tt, m') /\
     load_state m' = (Return (url_set {[A; B]}), m')) /\
  load_state (Machine (Some (Document (JArr [JStr B; JStr A]))) [])
  = (Return (url_set {[A; B]}), Machine (Some (Document (JArr [JStr B; JStr A]))) []) /\
  load_state (Machine (Some (Document (JArr [JStr A; JStr B]))) [])
  = (Return (url_set {[A; B]}), Machine (Some (Document (JArr [JStr A; JStr B]))) []).
Proof.
  destruct (state_round_trip {[A; B]} fresh) as [Hsave Horder].
  split; [exact Hsave|]. split.
  - apply (Horder [AStr B; AStr A] []).
    vm_compute. first [reflexivity | apply perm_swap].
  - apply (Horder [AStr A; AStr B] []).
    vm_compute. first [reflexivity | apply perm_swap].
Defined.

(** ** The further properties at work *)

Lemma pdf_filename_parts_witness :
  out_path (pdf_filename A) = OUT_DIR +:+ "/" +:+ pdf_filename A /\
  basename (out_path (pdf_filename A)) = pdf_filename A.
Proof.
  apply (proj2 (proj2 (proj2 (pdf_filename_parts A)))).
  by vm_compute.
Defined.

Lemma pdf_filename_fallback_witness :
  pdf_filename "https://x.org/a/" = digest_prefix "https://x.org/a/" +:+ "_drhp.pdf" /\
  basename (urlparse_path A) <> "" /\
  pdf_filename A
  = digest_prefix A +:+ "_" +:+ before_first "?" (basename (urlparse_path A)).
Proof.
  split.
  - apply (proj1 (pdf_filename_fallback "https://x.org/a/")). right. by vm_compute.
  - apply (proj2 (pdf_filename_fallback A)); by vm_compute.
Defined.

Lemma pdf_filename_collision_witness :
  pdf_filename A = pdf_filename B <->
  digest_prefix A = digest_prefix B /\ name_of A = name_of B.
Proof.
  apply (pdf_filename_collision A B); vm_compute; lia.
Defined.

Lemma early_abort_writes_nothing_witness :
  exists e evs,
    main bad_link seen_A = (Raise e, extend seen_A evs) /\
    state_file (extend seen_A evs) = state_file seen_A /\
    count is_download evs = 0 /\
    count is_upload evs = 0 /\
    count is_sleep evs = 0 /\
    count is_write evs = 0.
Proof.
  apply (early_abort_writes_nothing bad_link seen_A).
  right. right. left. by eexists.
Defined.

Lemma completed_run_history_witness :
  exists loaded anchors blocks doc n,
    load_state fresh = (Return loaded, fresh) /\
    listing alpha_down = Page anchors /\
    Forall2 block_of (collect_candidates anchors) blocks /\
    history (main alpha_down fresh).2
    = history fresh
      ++ [Print (LoadedState (size loaded)); FetchListing None; LoadCredentials None]
      ++ List.concat blocks
      ++ [WriteState doc; Print (NewPDFs n)] /\
    state_file (main alpha_down fresh).2 = Some (Document doc).
Proof.
  apply (completed_run_history alpha_down fresh (main alpha_down fresh).2).
  by vm_compute.
Defined.

Lemma candidates_recorded_or_reported_witness :
  exists anchors final evs,
    listing alpha_down = Page anchors /\
    load_state (main alpha_down fresh).2 = (Return final, (main alpha_down fresh).2) /\
    history (main alpha_down fresh).2 = history fresh ++ evs /\
    forall url,
      url ∈ collect_candidates anchors ->
      AStr url ∈ final \/ 0 < count (is_error_for url) evs.
Proof.
  apply (candidates_recorded_or_reported alpha_down fresh (main alpha_down fresh).2).
  by vm_compute.
Defined.

Lemma only_candidates_recorded_witness :
  exists loaded anchors final,
    load_state seen_A = (Return loaded, seen_A) /\
    listing fine = Page anchors /\
    load_state (main fine seen_A).2 = (Return final, (main fine seen_A).2) /\
    forall x,
      x ∈ final ->
      x ∈ loaded \/
      exists a, a ∈ anchors /\ selected a = true /\ x = AStr (resolve a).
Proof.
  apply (only_candidates_recorded fine seen_A (main fine seen_A).2).
  by vm_compute.
Defined.

Lemma nothing_new_run_witness :
  main fine seen_both
  = (Return tt,
     Machine
       (Some (Document
                (saved_document
                   (history seen_both
                    ++ [Print (LoadedState (size (list_to_set [AStr A; AStr B] : gset atom)));
                        FetchListing None; LoadCredentials None])
                   (list_to_set [AStr A; AStr B]))))
       (history seen_both
        ++ [Print (LoadedState (size (list_to_set [AStr A; AStr B] : gset atom)));
            FetchListing None; LoadCredentials None;
            WriteState
              (saved_document
                 (history seen_both
                  ++ [Print (LoadedState (size (list_to_set [AStr A; AStr B] : gset atom)));
                      FetchListing None; LoadCredentials None])
                 (list_to_set [AStr A; AStr B]));
            Print (NewPDFs 0)])).
Proof.
  apply (nothing_new_run fine seen_both (list_to_set [AStr A; AStr B]) page).
  - reflexivity.
  - reflexivity.
  - reflexivity.
  - assert (collect_candidates page = [A; B]) as -> by (by vm_compute).
    intros url Hin. apply elem_of_list_to_set.
    apply elem_of_cons in Hin as [->|Hin]; [by left|].
    apply elem_of_cons in Hin as [->|Hin]; [by right; left|].
    by apply elem_of_nil in Hin.
Defined.

Lemma second_run_idempotent_witness :
  exists final m2 doc,
    load_state (main fine fresh).2 = (Return final, (main fine fresh).2) /\
    main fine (main fine fresh).2 = (Return tt, m2) /\
    history m2
    = history (main fine fresh).2
      ++ [Print (LoadedState (size final)); FetchListing None; LoadCredentials None;
          WriteState doc; Print (NewPDFs 0)] /\
    state_file m2 = Some (Document doc) /\
    load_state m2 = (Return final, m2).
Proof.
  apply (second_run_idempotent fine fresh (main fine fresh).2 page).
  - by vm_compute.
  - reflexivity.
  - intros url _ h. split; reflexivity.
Defined.

Lemma saved_never_downloaded_again_witness :
  exists final,
    load_state (main alpha_down fresh).2 = (Return final, (main alpha_down fresh).2) /\
    forall (w' : world) url,
      AStr url ∈ final ->
      exists evs,
        history (main w' (main alpha_down fresh).2).2
        = history (main alpha_down fresh).2 ++ evs /\
        count (is_download_of url) evs = 0.
Proof.
  apply (saved_never_downloaded_again alpha_down fresh (main alpha_down fresh).2).
  by vm_compute.
Defined.

Lemma saved_file_format_witness :
  exists items,
    state_file (main fine seen_A).2 = Some (Document (JArr items)) /\
    NoDup items /\
    (state_file seen_A = None \/ (exists c, state_file seen_A = Some c /\ well_formed c) ->
     well_formed (Document (JArr items))).
Proof.
  apply (saved_file_format fine seen_A (main fine seen_A).2).
  by vm_compute.
Defined.

(** The second run of [second_run_idempotent_witness], in full. *)
Example second_run_in_full :
  main fine (main fine fresh).2
  = (Return tt,
     Machine (Some (Document (JArr [JStr A; JStr B])))
       (history (main fine fresh).2
        ++ [Print (LoadedState 2); FetchListing None; LoadCredentials None;
            WriteState (JArr [JStr A; JStr B]); Print (NewPDFs 0)])).
Proof. by vm_compute. Qed.
